(** * passport-token-google: the token strategy of [src/strategy.ts]

    A shallow embedding of the request authenticator ([authenticate]), the
    profile loader ([_loadUserProfile]) and the profile fetcher
    ([userProfile]) of the Google token strategy, together with the
    properties of the specification that concern them. *)

From Stdlib Require Import Ascii String.
From stdpp Require Import gmap strings list pretty.

Set Warnings "-register-all".

(* String literals read as strings; every other notation keeps its stdpp
   meaning. *)
Open Scope string_scope.
Open Scope nat_scope.
Open Scope list_scope.
Open Scope stdpp_scope.

(** ** JavaScript values *)

(** Plain data: what request containers, credentials and parsed JSON hold.
    [VNum] stands for an integer-valued number in the safe range, where the
    conversion to a string is the decimal numeral. *)
Inductive val : Type :=
  | VUndefined
  | VNull
  | VBool (b : bool)
  | VNum (n : Z)
  | VStr (s : string)
  | VObj (fields : gmap string val)
  | VArr (items : list val).

(** Any value a callback may hand over: plain data, or one of the objects
    this code meets besides.  [InternalOAuthError] is the provider
    communication error of passport-oauth2 (its constructor stores the
    message and the cause); [TypeError] and [SyntaxError] are the platform's
    own, whose message text is engine specific and not modelled;
    [StringSub] is the built-in function [String.prototype.sub], which a
    string yields when its property sub is read. *)
Inductive any : Type :=
  | Data (v : val)
  | InternalOAuthError (message : string) (oauthError : any)
  | TypeError
  | SyntaxError
  | StringSub.

Coercion Data : val >-> any.

(** ToBoolean. *)
Definition truthy_val (v : val) : bool :=
  match v with
  | VUndefined | VNull => false
  | VBool b => b
  | VNum n => negb (n =? 0)%Z
  | VStr s => negb (String.eqb s "")
  | VObj _ | VArr _ => true
  end.

Definition truthy (a : any) : bool :=
  match a with
  | Data v => truthy_val v
  | _ => true
  end.

(** ToString, as string concatenation applies it to plain data, where the
    conversion completes ([stringifies], further down, tells where it
    does).  An array joins its items with commas, printing undefined and
    null items as the empty string. *)
Fixpoint to_string (v : val) : string :=
  match v with
  | VUndefined => "undefined"
  | VNull => "null"
  | VBool true => "true"
  | VBool false => "false"
  | VNum n => pretty n
  | VStr s => s
  | VObj _ => "[object Object]"
  | VArr items =>
      let item x :=
        match x with
        | VUndefined | VNull => ""
        | _ => to_string x
        end in
      (fix join (l : list val) : string :=
         match l with
         | [] => ""
         | [x] => item x
         | x :: rest => item x +:+ "," +:+ join rest
         end) items
  end.

(** ** Completions: a normal result or a thrown exception *)

Inductive completion (A : Type) : Type :=
  | Normal (a : A)
  | Throw (exn : any).

Arguments Normal {A} a.
Arguments Throw {A} exn.

#[global] Instance completion_ret : MRet completion := @Normal.
#[global] Instance completion_bind : MBind completion :=
  fun A B k c =>
    match c with
    | Normal a => k a
    | Throw e => Throw e
    end.

(** Property read [o.k], for the names this code reads other than sub.
    Reading from undefined or null throws a TypeError; an object yields the
    field or undefined.  The names access_token, refresh_token and error,
    read from the request, and id, name, given_name, family_name and email,
    read from the parsed response, are no built-in property of a boolean,
    number, string or array, so those yield undefined.  The name sub, which
    is one of a string, is read by [get_sub]. *)
Definition get (o : val) (k : string) : completion val :=
  match o with
  | VUndefined | VNull => Throw TypeError
  | VObj fields => Normal (default VUndefined (fields !! k))
  | VBool _ | VNum _ | VStr _ | VArr _ => Normal VUndefined
  end.

(** [a || b], the right operand evaluated only when the left one is falsy. *)
Definition or_else (a : val) (b : completion val) : completion val :=
  if truthy_val a then Normal a else b.

(** [a && b], the right operand evaluated only when the left one is truthy. *)
Definition and_then (a : val) (b : completion val) : completion val :=
  if truthy_val a then b else Normal a.

(** Property read [json.sub]: as [get], except that a string yields its
    built-in method. *)
Definition get_sub (json : val) : completion any :=
  match json with
  | VStr _ => Normal StringSub
  | _ => v ← get json "sub"; Normal (Data v)
  end.

(** ** Data model *)

(** The inbound request: its three key-value containers, each possibly
    absent ([VUndefined]). *)
Record request : Type := {
  query : val;
  body : val;
  headers : val
}.

Record Name : Type := {
  familyName : val;
  givenName : val
}.

Record Email : Type := {
  value : val
}.

(** The normalized profile ([interface Profile]). *)
Record Profile : Type := {
  profileUrl : string;
  provider : string;
  id : any;
  displayName : val;
  name : Name;
  emails : list Email;
  _raw : val;
  _json : val
}.

(** The three outcomes the framework offers: [success(user, info)],
    [fail(challenge)] and [error(err)]. *)
Inductive outcome : Type :=
  | Success (user info : any)
  | Fail (challenge : any)
  | Error (err : any).

(** The arguments [_verify] receives before the continuation, in its two
    arities. *)
Inductive verify_args : Type :=
  | WithReq (req : request) (accessToken refreshToken : val)
      (profile : option Profile)
  | WithoutReq (accessToken refreshToken : val) (profile : option Profile).

(** What one authentication attempt does to the outside world, in order:
    HTTP GETs issued through [_oauth2.get], calls of the application's
    verify callback, and outcomes signalled to the framework. *)
Inductive event : Type :=
  | Get (url : string)
  | Verify (args : verify_args)
  | Signal (o : outcome).

Definition trace : Type := list event.

(** A function value used as skip policy: its declared arity ([.length]),
    what it returns when called without arguments, and, when called with a
    token and a callback, the arguments [(err, skip)] of each invocation of
    that callback. *)
Record js_function : Type := {
  fn_length : nat;
  fn_call : any;
  fn_call_async : val -> list (any * any)
}.

(** The [skipUserProfile] option: any value, or a function. *)
Inductive skip_option : Type :=
  | SkipValue (v : any)
  | SkipFunction (f : js_function).

(** The strategy instance, as far as this code reads it.  A delegated
    asynchronous call is given by the list of invocations it makes of the
    callback handed to it: [_oauth2_get url] lists the [(err, body)] pairs,
    [_verify args] the [(err, user, info)] triples.  Delegated code is taken
    to return normally. *)
Record Strategy : Type := {
  _oauth2_get : string -> list (any * val);
  _skipUserProfile : skip_option;
  _passReqToCallback : val;
  _verify : verify_args -> list (any * any * any)
}.

(** ** The strategy's operations, with collaborators that return *)

(** This section embeds [authenticate], [_loadUserProfile] and [userProfile]
    for an HTTP client, a skip predicate and a verify callback that return
    without throwing, and for tokens and bodies that convert to strings; a
    delegated call is then given by the invocations it makes of its
    callback.  The module [Full], further down, embeds the same functions
    without these assumptions; under them the two embeddings agree
    ([authenticate_in_full]). *)

(** The continuation handed to the verify callback (the inner function
    [verified] of [authenticate]). *)
Definition verified (err user info : any) : trace :=
  if truthy err then [Signal (Error err)]
  else if negb (truthy user) then [Signal (Fail info)]
  else [Signal (Success user info)].

(** The provider's token-introspection endpoint, up to the token. *)
Definition tokeninfo : string :=
  "https://www.googleapis.com/oauth2/v3/tokeninfo?id_token=".

(** One credential of the request, read from the field [field] of its
    containers: the conditional expression that [authenticate] evaluates
    for [access_token] and again for [refresh_token]. *)
Definition credential (field : string) (req : request) : completion val :=
  if truthy_val (body req) then
    b ← get (body req) field;
    or_else b (q ← get (query req) field;
               or_else q (get (headers req) field))
  else
    h ← get (headers req) field;
    or_else h (get (query req) field).

Section Operations.

(** The platform's [JSON.parse] on a text: the parsed value, or [None]
    when it throws its SyntaxError. *)
Variable JSON_parse : string -> option val.

(** The strategy instance ([this], [self]). *)
Variable self : Strategy.

(** The body of the [try] block of [userProfile]: parse the response and
    build the normalized profile; what it throws, the [catch] receives. *)
Definition parse_profile (url : string) (body : val) : completion Profile :=
  json ← match JSON_parse (to_string body) with
         | Some j => Normal j
         | None => Throw SyntaxError
         end;
  i ← get json "id";
  id ← (if truthy_val i then Normal (Data i) else get_sub json);
  displayName ← get json "name";
  familyName ← get json "family_name";
  givenName ← get json "given_name";
  email ← get json "email";
  mret {| profileUrl := url;
          provider := "google";
          id := id;
          displayName := displayName;
          name := {| familyName := familyName; givenName := givenName |};
          emails := [ {| value := email |} ];
          _raw := body;
          _json := json |}.

(** [userProfile(accessToken, done)]: one GET, then, for each invocation of
    its callback, one completion of [done].  As [done] returns normally, the
    [catch] only receives what parsing and mapping throw. *)
Definition userProfile (accessToken : val)
    (done : any -> option Profile -> trace) : trace :=
  let url := tokeninfo +:+ to_string accessToken in
  Get url ::
  (_oauth2_get self url ≫= λ '(err, body),
     if truthy err then
       done (InternalOAuthError "failed to fetch user profile" err) None
     else
       match parse_profile url body with
       | Normal profile => done VNull (Some profile)
       | Throw e => done e None
       end).

(** [_loadUserProfile(accessToken, done)]: a function of two or more
    parameters is asked asynchronously; any other function is called without
    arguments, and any other value is the decision itself. *)
Definition _loadUserProfile (accessToken : val)
    (done : any -> option Profile -> trace) : trace :=
  let loadIt := userProfile accessToken done in
  let skipIt := done VNull None in
  match _skipUserProfile self with
  | SkipFunction f =>
      if 1 <? fn_length f then
        (* async *)
        fn_call_async f accessToken ≫= λ '(err, skip),
          if truthy err then done err None
          else if negb (truthy skip) then loadIt
          else skipIt
      else
        let skip := fn_call f in
        if negb (truthy skip) then loadIt else skipIt
  | SkipValue v =>
      let skip := v in
      if negb (truthy skip) then loadIt else skipIt
  end.

(** The callback [authenticate] hands to [_loadUserProfile]. *)
Definition loaded (req : request) (accessToken refreshToken : val)
    (err : any) (profile : option Profile) : trace :=
  if truthy err then [Signal (Fail err)]
  else
    let args :=
      if truthy_val (_passReqToCallback self)
      then WithReq req accessToken refreshToken profile
      else WithoutReq accessToken refreshToken profile in
    Verify args ::
    (_verify self args ≫= λ '(err, user, info), verified err user info).

(** [authenticate(req, options)]: the events of the attempt, or the
    exception thrown to the framework before any of them. *)
Definition authenticate (req : request) : completion trace :=
  error ← and_then (query req) (get (query req) "error");
  if truthy_val error then
    mret [Signal (Fail VUndefined)]
  else
    accessToken ← credential "access_token" req;
    refreshToken ← credential "refresh_token" req;
    mret (_loadUserProfile accessToken
            (loaded req accessToken refreshToken)).

End Operations.

(** The outcomes a trace signals, in order. *)
Definition outcomes (t : trace) : list outcome :=
  omap (λ e, match e with Signal o => Some o | _ => None end) t.

(** The URLs a trace fetches, in order. *)
Definition fetches (t : trace) : list string :=
  omap (λ e, match e with Get url => Some url | _ => None end) t.

(** Whether a value is undefined or null, the two values a property cannot
    be read from. *)
Definition nullish (v : val) : bool :=
  match v with
  | VUndefined | VNull => true
  | _ => false
  end.

(** The field [k] of a container, undefined when the container has no such
    field or is no object: what [get] yields when it does not throw. *)
Definition field_of (container : val) (k : string) : val :=
  match container with
  | VObj fields => default VUndefined (fields !! k)
  | _ => VUndefined
  end.

(** Whether the request carries the error indicator [req.query.error]. *)
Definition has_error (req : request) : bool :=
  truthy_val (query req) && truthy_val (field_of (query req) "error").

(** The containers in the order [credential] consults them. *)
Definition lookup_order (req : request) : list val :=
  if truthy_val (body req)
  then [body req; query req; headers req]
  else [headers req; query req].

(** Each callback handed to delegated code is invoked at most once. *)
Definition at_most_once (self : Strategy) : Prop :=
  (∀ url, length (_oauth2_get self url) ≤ 1) ∧
  (∀ args, length (_verify self args) ≤ 1) ∧
  (∀ f tok, _skipUserProfile self = SkipFunction f → 1 < fn_length f →
            length (fn_call_async f tok) ≤ 1).

(** Each callback handed to delegated code is invoked exactly once. *)
Definition exactly_once (self : Strategy) : Prop :=
  (∀ url, length (_oauth2_get self url) = 1) ∧
  (∀ args, length (_verify self args) = 1) ∧
  (∀ f tok, _skipUserProfile self = SkipFunction f → 1 < fn_length f →
            length (fn_call_async f tok) = 1).

(** The skip policy decides to skip the fetch for the token [tok]. *)
Inductive resolves_to_skip (self : Strategy) (tok : val) : Prop :=
  | skip_by_value v :
      _skipUserProfile self = SkipValue v →
      truthy v = true →
      resolves_to_skip self tok
  | skip_by_sync f :
      _skipUserProfile self = SkipFunction f →
      fn_length f ≤ 1 →
      truthy (fn_call f) = true →
      resolves_to_skip self tok
  | skip_by_async f err skip :
      _skipUserProfile self = SkipFunction f →
      1 < fn_length f →
      fn_call_async f tok = [(err, skip)] →
      truthy err = false →
      truthy skip = true →
      resolves_to_skip self tok.

(** The skip policy decides to fetch the profile for the token [tok]. *)
Inductive resolves_to_fetch (self : Strategy) (tok : val) : Prop :=
  | fetch_by_value v :
      _skipUserProfile self = SkipValue v →
      truthy v = false →
      resolves_to_fetch self tok
  | fetch_by_sync f :
      _skipUserProfile self = SkipFunction f →
      fn_length f ≤ 1 →
      truthy (fn_call f) = false →
      resolves_to_fetch self tok
  | fetch_by_async f err skip :
      _skipUserProfile self = SkipFunction f →
      1 < fn_length f →
      fn_call_async f tok = [(err, skip)] →
      truthy err = false →
      truthy skip = false →
      resolves_to_fetch self tok.

(** The candidate on which the spec's "first present value wins" settles:
    the first truthy one, if any. *)
Fixpoint first_present (candidates : list val) : option val :=
  match candidates with
  | [] => None
  | v :: rest => if truthy_val v then Some v else first_present rest
  end.

(** ** Strategy construction *)

Module Construction.

(** The provider's canonical endpoints. *)
Definition authorizationURL_default : string :=
  "https://accounts.google.com/o/oauth2/auth".
Definition tokenURL_default : string :=
  "https://accounts.google.com/o/oauth2/token".

(** [a || b] on two values. *)
Definition or_val (a b : val) : val := if truthy_val a then a else b.

(** What [GoogleTokenStrategy] leaves behind: the options object as the
    base constructor receives it (the caller's own object, updated in
    place), the verify callback handed on, and the instance's name.  What
    the base constructor of passport-oauth2 does with them is not part of
    this repository. *)
Record instance (V : Type) : Type := {
  options : gmap string val;
  verify : V;
  name : string
}.

Arguments options {V} _.
Arguments verify {V} _.
Arguments name {V} _.

(** [GoogleTokenStrategy(options, verify)], for an options object or none
    ([options || {}]). *)
Definition GoogleTokenStrategy {V : Type} (opts : option (gmap string val))
    (verify : V) : instance V :=
  let o := default ∅ opts in
  let o := <["authorizationURL" :=
               or_val (default VUndefined (o !! "authorizationURL"))
                 (VStr authorizationURL_default)]> o in
  let o := <["tokenURL" :=
               or_val (default VUndefined (o !! "tokenURL"))
                 (VStr tokenURL_default)]> o in
  {| options := o; verify := verify; name := "google-token" |}.

End Construction.

(** ** Reading traces and requests *)


(** The arguments [authenticate] calls [_verify] with, by the
    [_passReqToCallback] flag. *)
Definition verify_args_for (self : Strategy) (req : request)
    (accessToken refreshToken : val) (profile : option Profile)
    : verify_args :=
  if truthy_val (_passReqToCallback self)
  then WithReq req accessToken refreshToken profile
  else WithoutReq accessToken refreshToken profile.

(** What [json.sub] yields when the read does not throw. *)
Definition sub_of (json : val) : any :=
  match json with
  | VStr _ => StringSub
  | _ => Data (field_of json "sub")
  end.

(** The object literal of [userProfile], for a parsed response whose fields
    can be read. *)
Definition normalized (url : string) (body json : val) : Profile :=
  {| profileUrl := url;
     provider := "google";
     id := if truthy_val (field_of json "id")
           then Data (field_of json "id") else sub_of json;
     displayName := field_of json "name";
     name := {| familyName := field_of json "family_name";
                givenName := field_of json "given_name" |};
     emails := [ {| value := field_of json "email" |} ];
     _raw := body;
     _json := json |}.

(** Whether reading the credential [field] reaches a container that is
    undefined or null: the containers are read in the order of
    [credential], each only after the fields before it proved falsy. *)
Definition reaches_missing (field : string) (req : request) : bool :=
  if truthy_val (body req) then
    negb (truthy_val (field_of (body req) field))
    && (nullish (query req)
        || negb (truthy_val (field_of (query req) field))
           && nullish (headers req))
  else
    nullish (headers req)
    || negb (truthy_val (field_of (headers req) field))
       && nullish (query req).

(** An attempt in its regular order: at most one GET, then at most one call
    of the verify callback, then at most one outcome. *)
Definition in_order (t : trace) : Prop :=
  ∃ (gets : list string) (calls : list verify_args) (signals : list outcome),
    t = (Get <$> gets) ++ (Verify <$> calls) ++ (Signal <$> signals)
    ∧ length gets ≤ 1 ∧ length calls ≤ 1 ∧ length signals ≤ 1.

(** The completions [(err, profile)] the loader can hand to its callback
    for the token [tok]: none but these six.  The loader skips, or passes on
    the error an asynchronous skip predicate reports; the fetcher wraps the
    error of the HTTP client, passes on what the parse step throws, or
    delivers the profile normalized from the response. *)
Inductive load_result (parse : string → option val) (self : Strategy)
    (tok : val) : any → option Profile → Prop :=
  | load_skipped :
      load_result parse self tok VNull None
  | load_policy_error f err skip :
      _skipUserProfile self = SkipFunction f →
      1 < fn_length f →
      (err, skip) ∈ fn_call_async f tok →
      truthy err = true →
      load_result parse self tok err None
  | load_transport_error err body :
      (err, body) ∈ _oauth2_get self (tokeninfo +:+ to_string tok) →
      truthy err = true →
      load_result parse self tok
        (InternalOAuthError "failed to fetch user profile" err) None
  | load_syntax_error err body :
      (err, body) ∈ _oauth2_get self (tokeninfo +:+ to_string tok) →
      truthy err = false →
      parse (to_string body) = None →
      load_result parse self tok SyntaxError None
  | load_type_error err body json :
      (err, body) ∈ _oauth2_get self (tokeninfo +:+ to_string tok) →
      truthy err = false →
      parse (to_string body) = Some json →
      nullish json = true →
      load_result parse self tok TypeError None
  | load_profile err body json :
      (err, body) ∈ _oauth2_get self (tokeninfo +:+ to_string tok) →
      truthy err = false →
      parse (to_string body) = Some json →
      nullish json = false →
      load_result parse self tok VNull
        (Some (normalized (tokeninfo +:+ to_string tok) body json)).

(** ** The operations in full: collaborators that may throw *)

(** The operations above take the HTTP client, the skip predicate and the
    verify callback to return normally, and every token and body to convert
    to a string.  The module [Full] embeds the same three functions without
    these assumptions. *)

(** Whether ToString completes on plain data.  An object with an own
    property toString (which in plain data is no function) has nothing to
    convert it and the conversion throws a TypeError; an array converts its
    items, other than undefined and null, in turn. *)
Fixpoint stringifies (v : val) : bool :=
  match v with
  | VObj fields =>
      match fields !! "toString" with
      | None => true
      | Some _ => false
      end
  | VArr items => forallb stringifies items
  | _ => true
  end.

(** ToString, where it may throw: string concatenation and the argument of
    [JSON.parse]. *)
Definition ToString (v : val) : completion string :=
  if stringifies v then Normal (to_string v) else Throw TypeError.

Module Full.

(** What a stretch of code does: the events while it runs, the exception it
    throws if any, and the events of the callbacks that are invoked only
    after it has returned.  What such a late callback throws goes to the
    event loop and is no event of the attempt. *)
Record run : Type := {
  events : trace;
  thrown : option any;
  afterwards : trace
}.

(** All the events of a run, in order. *)
Definition total (r : run) : trace := events r ++ afterwards r.

Definition emit (t : trace) : run :=
  {| events := t; thrown := None; afterwards := [] |}.

Definition throw (e : any) : run :=
  {| events := []; thrown := Some e; afterwards := [] |}.

(** [first; next]: what follows an exception does not run. *)
Definition seq (first next : run) : run :=
  match thrown first with
  | Some _ => first
  | None =>
      {| events := events first ++ events next;
         thrown := thrown next;
         afterwards := afterwards first ++ afterwards next |}
  end.

(** [try { body } catch (e) { handler e }]. *)
Definition try_catch (body : run) (handler : any → run) : run :=
  match thrown body with
  | None => body
  | Some e =>
      {| events := events body ++ events (handler e);
         thrown := thrown (handler e);
         afterwards := afterwards body ++ afterwards (handler e) |}
  end.

(** A completion continued by a run. *)
Definition run_of {A : Type} (c : completion A) (k : A → run) : run :=
  match c with
  | Normal a => k a
  | Throw e => throw e
  end.

(** How a delegated call behaves towards the callback it is handed: the
    arguments of the invocations it makes before it completes, whether it
    returns ([None]) or throws, and the arguments of the invocations it
    makes later.  An exception of the callback during one of the former
    unwinds through the delegated code, which then makes no more of them;
    the later ones are made all the same. *)
Record behaviour (A : Type) : Type := {
  now : list A;
  completes : option any;
  later : list A
}.

Arguments now {A} _.
Arguments completes {A} _.
Arguments later {A} _.

(** A delegated call with the callback [callback]. *)
Definition call {A : Type} (b : behaviour A) (callback : A → run) : run :=
  let during :=
    seq (foldr (λ x rest, seq (callback x) rest) (emit []) (now b))
        {| events := []; thrown := completes b; afterwards := [] |} in
  {| events := events during;
     thrown := thrown during;
     afterwards := afterwards during ++ (later b ≫= λ x, total (callback x)) |}.

(** A function value used as skip policy: its declared arity, how a call
    without arguments completes, and how a call with a token and a callback
    behaves. *)
Record js_function : Type := {
  fn_length : nat;
  fn_call : completion any;
  fn_call_async : val → behaviour (any * any)
}.

Inductive skip_option : Type :=
  | SkipValue (v : any)
  | SkipFunction (f : js_function).

(** The strategy instance. *)
Record Strategy : Type := {
  _oauth2_get : string → behaviour (any * val);
  _skipUserProfile : skip_option;
  _passReqToCallback : val;
  _verify : verify_args → behaviour (any * any * any)
}.

Section Operations.

Variable JSON_parse : string → option val.

Variable self : Strategy.

(** The statements of the [try] block of [userProfile] before
    [done(null, profile)]: [JSON.parse(body)], which first converts the body
    to a string, and the object literal. *)
Definition build_profile (url : string) (body : val) : completion Profile :=
  text ← ToString body;
  json ← match JSON_parse text with
         | Some j => Normal j
         | None => Throw SyntaxError
         end;
  i ← get json "id";
  id ← (if truthy_val i then Normal (Data i) else get_sub json);
  displayName ← get json "name";
  familyName ← get json "family_name";
  givenName ← get json "given_name";
  email ← get json "email";
  mret {| profileUrl := url;
          provider := "google";
          id := id;
          displayName := displayName;
          name := {| familyName := familyName; givenName := givenName |};
          emails := [ {| value := email |} ];
          _raw := body;
          _json := json |}.

(** The inner function [verified] of [authenticate]; the framework's
    [error], [fail] and [success] return normally. *)
Definition verified (err user info : any) : run :=
  if truthy err then emit [Signal (Error err)]
  else if negb (truthy user) then emit [Signal (Fail info)]
  else emit [Signal (Success user info)].

(** The arguments of [_verify], by the [_passReqToCallback] flag. *)
Definition verify_args_for (req : request) (accessToken refreshToken : val)
    (profile : option Profile) : verify_args :=
  if truthy_val (_passReqToCallback self)
  then WithReq req accessToken refreshToken profile
  else WithoutReq accessToken refreshToken profile.

(** The callback [authenticate] hands to [_loadUserProfile]. *)
Definition loaded (req : request) (accessToken refreshToken : val)
    (err : any) (profile : option Profile) : run :=
  if truthy err then emit [Signal (Fail err)]
  else
    let args := verify_args_for req accessToken refreshToken profile in
    seq (emit [Verify args])
        (call (_verify self args)
           (λ '(err, user, info), verified err user info)).

(** The callback [userProfile] hands to [_oauth2.get].
    [done(null, profile)] is inside the [try], so that what it throws is
    caught and [done] is invoked again, with the exception. *)
Definition fetched (url : string) (done : any → option Profile → run)
    (err : any) (body : val) : run :=
  if truthy err then
    done (InternalOAuthError "failed to fetch user profile" err) None
  else
    try_catch
      (run_of (build_profile url body)
         (λ profile, done VNull (Some profile)))
      (λ e, done e None).

(** [userProfile(accessToken, done)].  The concatenation that builds the URL
    may throw. *)
Definition userProfile (accessToken : val)
    (done : any → option Profile → run) : run :=
  run_of (ToString accessToken) (λ text,
    let url := tokeninfo +:+ text in
    seq (emit [Get url])
        (call (_oauth2_get self url)
           (λ '(err, body), fetched url done err body))).

(** [_loadUserProfile(accessToken, done)]. *)
Definition _loadUserProfile (accessToken : val)
    (done : any → option Profile → run) : run :=
  let loadIt := userProfile accessToken done in
  let skipIt := done VNull None in
  match _skipUserProfile self with
  | SkipFunction f =>
      if 1 <? fn_length f then
        (* async *)
        call (fn_call_async f accessToken) (λ '(err, skip),
          if truthy err then done err None
          else if negb (truthy skip) then loadIt
          else skipIt)
      else
        run_of (fn_call f) (λ skip,
          if negb (truthy skip) then loadIt else skipIt)
  | SkipValue v =>
      let skip := v in
      if negb (truthy skip) then loadIt else skipIt
  end.

(** [authenticate(req, options)]. *)
Definition authenticate (req : request) : run :=
  run_of (and_then (query req) (get (query req) "error")) (λ error,
    if truthy_val error then
      emit [Signal (Fail VUndefined)]
    else
      run_of (credential "access_token" req) (λ accessToken,
        run_of (credential "refresh_token" req) (λ refreshToken,
          _loadUserProfile accessToken
            (loaded req accessToken refreshToken)))).

End Operations.

(** A delegated call makes exactly one invocation of its callback, with
    the arguments [x]. *)
Definition delivers_once {A : Type} (b : behaviour A) (x : A) : Prop :=
  now b ++ later b = [x].

(** Every delegated call invokes its callback at most once. *)
Definition at_most_once (self : Strategy) : Prop :=
  (∀ url, length (now (_oauth2_get self url)
                  ++ later (_oauth2_get self url)) ≤ 1)
  ∧ (∀ args, length (now (_verify self args)
                     ++ later (_verify self args)) ≤ 1)
  ∧ (∀ f tok, _skipUserProfile self = SkipFunction f → 1 < fn_length f →
              length (now (fn_call_async f tok)
                      ++ later (fn_call_async f tok)) ≤ 1).

(** Every delegated call invokes its callback exactly once. *)
Definition exactly_once (self : Strategy) : Prop :=
  (∀ url, length (now (_oauth2_get self url)
                  ++ later (_oauth2_get self url)) = 1)
  ∧ (∀ args, length (now (_verify self args)
                     ++ later (_verify self args)) = 1)
  ∧ (∀ f tok, _skipUserProfile self = SkipFunction f → 1 < fn_length f →
              length (now (fn_call_async f tok)
                      ++ later (fn_call_async f tok)) = 1).

(** The verify callback returns without throwing. *)
Definition verify_returns (self : Strategy) : Prop :=
  ∀ args, completes (_verify self args) = None.

(** Every delegated call returns without throwing: the HTTP client, the
    verify callback, and the skip predicate in the form in which
    [_loadUserProfile] calls it. *)
Definition returns_normally (self : Strategy) : Prop :=
  (∀ url, completes (_oauth2_get self url) = None)
  ∧ verify_returns self
  ∧ (∀ f, _skipUserProfile self = SkipFunction f →
          if 1 <? fn_length f
          then ∀ tok, completes (fn_call_async f tok) = None
          else ∃ skip, fn_call f = Normal skip).

(** The skip policy decides to fetch the profile for the token [tok]. *)
Inductive resolves_to_fetch (self : Strategy) (tok : val) : Prop :=
  | fetch_by_value v :
      _skipUserProfile self = SkipValue v →
      truthy v = false →
      resolves_to_fetch self tok
  | fetch_by_sync f skip :
      _skipUserProfile self = SkipFunction f →
      fn_length f ≤ 1 →
      fn_call f = Normal skip →
      truthy skip = false →
      resolves_to_fetch self tok
  | fetch_by_async f err skip :
      _skipUserProfile self = SkipFunction f →
      1 < fn_length f →
      delivers_once (fn_call_async f tok) (err, skip) →
      truthy err = false →
      truthy skip = false →
      resolves_to_fetch self tok.

(** The skip policy decides to skip without asking: it is a truthy value, or
    a function of at most one parameter that returns one. *)
Inductive skips_directly (self : Strategy) : Prop :=
  | skip_by_value v :
      _skipUserProfile self = SkipValue v →
      truthy v = true →
      skips_directly self
  | skip_by_sync f skip :
      _skipUserProfile self = SkipFunction f →
      fn_length f ≤ 1 →
      fn_call f = Normal skip →
      truthy skip = true →
      skips_directly self.

(** The completions [(err, profile)] with which the load callback of
    [authenticate] can be invoked for the credentials [a] and [r]: none but
    these six.  The loader skips, or passes on the error an asynchronous
    skip predicate reports; the fetcher wraps the error of the HTTP client,
    delivers the profile built from a response, passes on what building it
    throws, or passes on what the verify callback throws when it is called
    with that profile. *)
Inductive load_result (parse : string → option val) (self : Strategy)
    (req : request) (a r : val) : any → option Profile → Prop :=
  | load_skipped :
      load_result parse self req a r VNull None
  | load_policy_error f err skip :
      _skipUserProfile self = SkipFunction f →
      1 < fn_length f →
      (err, skip) ∈ now (fn_call_async f a) ++ later (fn_call_async f a) →
      truthy err = true →
      load_result parse self req a r err None
  | load_transport_error err body :
      stringifies a = true →
      (err, body) ∈ now (_oauth2_get self (tokeninfo +:+ to_string a))
                    ++ later (_oauth2_get self (tokeninfo +:+ to_string a)) →
      truthy err = true →
      load_result parse self req a r
        (InternalOAuthError "failed to fetch user profile" err) None
  | load_build_error err body e :
      stringifies a = true →
      (err, body) ∈ now (_oauth2_get self (tokeninfo +:+ to_string a))
                    ++ later (_oauth2_get self (tokeninfo +:+ to_string a)) →
      truthy err = false →
      build_profile parse (tokeninfo +:+ to_string a) body = Throw e →
      load_result parse self req a r e None
  | load_profile err body profile :
      stringifies a = true →
      (err, body) ∈ now (_oauth2_get self (tokeninfo +:+ to_string a))
                    ++ later (_oauth2_get self (tokeninfo +:+ to_string a)) →
      truthy err = false →
      build_profile parse (tokeninfo +:+ to_string a) body = Normal profile →
      load_result parse self req a r VNull (Some profile)
  | load_verify_error err body profile e :
      stringifies a = true →
      (err, body) ∈ now (_oauth2_get self (tokeninfo +:+ to_string a))
                    ++ later (_oauth2_get self (tokeninfo +:+ to_string a)) →
      truthy err = false →
      build_profile parse (tokeninfo +:+ to_string a) body = Normal profile →
      completes (_verify self (verify_args_for self req a r (Some profile)))
        = Some e →
      load_result parse self req a r e None.

End Full.

(** ** The two embeddings side by side *)

(** A delegated call that returns and makes the given invocations of its
    callback afterwards. *)
Definition deferred {A : Type} (invocations : list A) : Full.behaviour A :=
  {| Full.now := []; Full.completes := None; Full.later := invocations |}.

(** A skip predicate that returns, as one that might not. *)
Definition function_in_full (f : js_function) : Full.js_function :=
  {| Full.fn_length := fn_length f;
     Full.fn_call := Normal (fn_call f);
     Full.fn_call_async := λ tok, deferred (fn_call_async f tok) |}.

(** A strategy with collaborators that return, as a strategy in full. *)
Definition in_full (self : Strategy) : Full.Strategy :=
  {| Full._oauth2_get := λ url, deferred (_oauth2_get self url);
     Full._skipUserProfile :=
       match _skipUserProfile self with
       | SkipValue v => Full.SkipValue v
       | SkipFunction f => Full.SkipFunction (function_in_full f)
       end;
     Full._passReqToCallback := _passReqToCallback self;
     Full._verify := λ args, deferred (_verify self args) |}.

(** ** Sample data for the examples *)

Module Samples.

(** The double quote character, and a text between double quotes. *)
Definition dq : string := String "034"%char "".
Definition quoted (s : string) : string := dq +:+ s +:+ dq.

(** The provider response of the spec's example: an object with the claims
    sub, name and email, and no id. *)
Definition response_sub : string :=
  "{" +:+ quoted "sub" +:+ ": " +:+ quoted "42" +:+ ", "
      +:+ quoted "name" +:+ ": " +:+ quoted "A B" +:+ ", "
      +:+ quoted "email" +:+ ": " +:+ quoted "a@b.com" +:+ "}".

Definition claims_sub : val :=
  VObj {[ "sub" := VStr "42"; "name" := VStr "A B";
          "email" := VStr "a@b.com" ]}.

(** [JSON.parse] on the texts the examples use: the literal null, the
    response above, and text that is no JSON at all. *)
Definition JSON_parse (text : string) : option val :=
  if String.eqb text "null" then Some VNull
  else if String.eqb text response_sub then Some claims_sub
  else None.

(** A strategy whose HTTP client, skip policy and verify callback behave
    the same for every argument. *)
Definition strategy_with (responses : list (any * val)) (skip : skip_option)
    (verdicts : list (any * any * any)) : Strategy :=
  {| _oauth2_get := λ _, responses;
     _skipUserProfile := skip;
     _passReqToCallback := VBool false;
     _verify := λ _, verdicts |}.


Definition user_1 : any := VObj {[ "id" := VNum 1 ]}.

(** A request carrying the access token in its body. *)
Definition body_request : request :=
  {| query := VObj ∅;
     body := VObj {[ "access_token" := VStr "abc" ]};
     headers := VObj ∅ |}.

(** A request without body, the token in both header and query. *)
Definition header_request : request :=
  {| query := VObj {[ "access_token" := VStr "from-query" ]};
     body := VUndefined;
     headers := VObj {[ "access_token" := VStr "from-header" ]} |}.

(** A request with an empty body and no query container, the token in a
    header. *)
Definition no_query_request : request :=
  {| query := VUndefined;
     body := VObj ∅;
     headers := VObj {[ "access_token" := VStr "from-header" ]} |}.

(** A request with neither body nor headers. *)
Definition bare_request : request :=
  {| query := VObj ∅; body := VUndefined; headers := VUndefined |}.

(** A request with an empty body and an empty query, and no headers. *)
Definition no_headers_request : request :=
  {| query := VObj ∅; body := VObj ∅; headers := VUndefined |}.

(** A request whose query carries the error indicator. *)
Definition denied_request : request :=
  {| query := VObj {[ "error" := VStr "access_denied" ]};
     body := VObj {[ "access_token" := VStr "abc" ]};
     headers := VObj ∅ |}.

(** Skip predicates: synchronous, and asynchronous reporting [(err, skip)]. *)
Definition sync_predicate (result : any) : js_function :=
  {| fn_length := 0; fn_call := result; fn_call_async := λ _, [] |}.

Definition async_predicate (err skip : any) : js_function :=
  {| fn_length := 2; fn_call := VUndefined;
     fn_call_async := λ _, [(err, skip)] |}.


Definition sample_url : string :=
  "https://www.googleapis.com/oauth2/v3/tokeninfo?id_token=abc".

Definition sample_profile : Profile :=
  normalized sample_url (VStr response_sub) claims_sub.

(** The attempt of [body_request] under [ruling verdict], up to its
    outcome. *)
Definition ruled (o : outcome) : trace :=
  [Get sample_url;
   Verify (WithoutReq (VStr "abc") VUndefined (Some sample_profile));
   Signal o].

(** The same collaborators in full: the HTTP client makes its invocations
    after it has returned, the verify callback makes its own before it
    completes as [completion] says. *)
Definition full_with (responses : list (any * val))
    (skip : Full.skip_option) (verdicts : list (any * any * any))
    (completion : option any) : Full.Strategy :=
  {| Full._oauth2_get := λ _,
       {| Full.now := []; Full.completes := None; Full.later := responses |};
     Full._skipUserProfile := skip;
     Full._passReqToCallback := VBool false;
     Full._verify := λ _,
       {| Full.now := verdicts; Full.completes := completion;
          Full.later := [] |} |}.

(** A callback that records the completion it is invoked with. *)
Definition recording (err : any) (profile : option Profile) : Full.run :=
  Full.emit [Signal (Error err); Verify (WithoutReq VNull VNull profile)].

End Samples.

(** ** Proof steps *)

(** Closes a goal that gives the shape of a trace and bounds its parts. *)
Ltac shaped := repeat split; first [reflexivity | simpl; lia].

(** ** Reading properties *)

Lemma get_nullish o k : nullish o = true → get o k = Throw TypeError.
Proof. by destruct o. Qed.

Lemma get_present o k : nullish o = false → get o k = Normal (field_of o k).
Proof. by destruct o. Qed.

Lemma truthy_present o : truthy_val o = true → nullish o = false.
Proof. by destruct o. Qed.

Lemma get_truthy o k : truthy_val o = true → get o k = Normal (field_of o k).
Proof. intros H. by apply get_present, truthy_present. Qed.

Lemma field_of_nullish o k : nullish o = true → field_of o k = VUndefined.
Proof. by destruct o. Qed.

Lemma get_sub_present json :
  nullish json = false → get_sub json = Normal (sub_of json).
Proof. by destruct json. Qed.

Lemma get_sub_nullish json :
  nullish json = true → get_sub json = Throw TypeError.
Proof. by destruct json. Qed.

(** The guard [req.query && req.query.error] never throws, and is truthy
    exactly when the request carries the error indicator. *)
Lemma error_guard req :
  ∃ e, and_then (query req) (get (query req) "error") = Normal e
       ∧ truthy_val e = has_error req.
Proof.
  unfold and_then, has_error.
  destruct (truthy_val (query req)) eqn:Hq.
  - rewrite (get_truthy _ _ Hq). by eexists.
  - by exists (query req).
Qed.

(** [authenticate] past its guard. *)
Lemma authenticate_unfold parse self req :
  authenticate parse self req =
    if has_error req then Normal [Signal (Fail VUndefined)]
    else
      accessToken ← credential "access_token" req;
      refreshToken ← credential "refresh_token" req;
      Normal (_loadUserProfile parse self accessToken
                (loaded self req accessToken refreshToken)).
Proof.
  unfold authenticate.
  destruct (error_guard req) as (e & -> & <-).
  reflexivity.
Qed.


(** ** The verify continuation *)

(** C3: the continuation handed to the verify callback, invoked with
    [(err, user, info)], signals the error outcome with [err] when [err] is
    present; the fail outcome with [info] as the reason when [err] is absent
    and [user] is falsy; and the success outcome with [user] and [info]
    otherwise. *)
Theorem verified_dispatch (err user info : any) :
  (truthy err = true → verified err user info = [Signal (Error err)]) ∧
  (truthy err = false → truthy user = false →
     verified err user info = [Signal (Fail info)]) ∧
  (truthy err = false → truthy user = true →
     verified err user info = [Signal (Success user info)]).
Proof.
  unfold verified.
  repeat split; intros;
    repeat match goal with H : truthy _ = _ |- _ => rewrite H; clear H end;
    reflexivity.
Qed.

(** The two invocations of the spec's example: [(null, false, "bad creds")]
    fails with that reason, [(null, {id: 1}, null)] succeeds with that
    user. *)
Lemma verified_dispatch_witness :
  verified VNull (VBool false) (VStr "bad creds")
    = [Signal (Fail (VStr "bad creds"))]
  ∧ verified VNull Samples.user_1 VNull
    = [Signal (Success Samples.user_1 VNull)]
  ∧ verified TypeError Samples.user_1 VNull = [Signal (Error TypeError)].
Proof.
  split; [|split].
  - apply (verified_dispatch VNull (VBool false) (VStr "bad creds"));
      reflexivity.
  - apply (verified_dispatch VNull Samples.user_1 VNull); reflexivity.
  - apply (verified_dispatch TypeError Samples.user_1 VNull); reflexivity.
Defined.

(** ** The error indicator *)

(** C6: a request whose query container is present and carries a truthy
    error field is failed at once, with no reason payload: the fail outcome
    is the only event of the attempt, so no profile is fetched and the verify
    callback is not called, whatever the strategy's configuration. *)
Theorem authenticate_query_error parse self req (q : gmap string val) e :
  query req = VObj q →
  q !! "error" = Some e →
  truthy_val e = true →
  authenticate parse self req = Normal [Signal (Fail VUndefined)].
Proof.
  intros Hq He Ht.
  rewrite authenticate_unfold.
  unfold has_error. rewrite Hq. simpl. rewrite He. simpl. by rewrite Ht.
Qed.

Lemma authenticate_query_error_witness :
  authenticate Samples.JSON_parse
    (Samples.strategy_with [(Data VNull, VStr "null")] (SkipValue VUndefined)
       [(Data VNull, Samples.user_1, Data VNull)])
    Samples.denied_request
  = Normal [Signal (Fail VUndefined)].
Proof.
  eapply (authenticate_query_error _ _ Samples.denied_request
            {[ "error" := VStr "access_denied" ]} (VStr "access_denied"));
    reflexivity.
Defined.

(** ** Credential extraction *)

Lemma credential_body field req :
  truthy_val (body req) = true →
  credential field req =
    or_else (field_of (body req) field)
      (q ← get (query req) field; or_else q (get (headers req) field)).
Proof.
  intros Hb. unfold credential. rewrite Hb, (get_truthy _ _ Hb). reflexivity.
Qed.

Lemma credential_no_body field req :
  truthy_val (body req) = false →
  credential field req =
    h ← get (headers req) field; or_else h (get (query req) field).
Proof. intros Hb. unfold credential. by rewrite Hb. Qed.

(** C2, as stated, fails: with a body container that lacks the token and no
    query container, the claim selects the header value, and the code throws
    instead. *)
Lemma credential_precedence_counterexample :
  truthy_val (body Samples.no_query_request) = true
  ∧ first_present ((λ c, field_of c "access_token")
                     <$> lookup_order Samples.no_query_request)
    = Some (VStr "from-header")
  ∧ credential "access_token" Samples.no_query_request = Throw TypeError.
Proof. repeat split. Qed.

(** With the query and headers containers present, extraction returns the
    first truthy candidate, or a falsy value when there is none. *)
Lemma credential_first_present field req :
  nullish (query req) = false → nullish (headers req) = false →
  ∃ v, credential field req = Normal v ∧
       match first_present ((λ c, field_of c field) <$> lookup_order req) with
       | Some w => v = w
       | None => truthy_val v = false
       end.
Proof.
  intros Hq Hh. unfold lookup_order.
  destruct (truthy_val (body req)) eqn:Hb.
  - rewrite (credential_body _ _ Hb), (get_present _ _ Hq),
      (get_present _ _ Hh).
    simpl. unfold or_else.
    destruct (truthy_val (field_of (body req) field)); [by eexists|].
    destruct (truthy_val (field_of (query req) field)); [by eexists|].
    destruct (truthy_val (field_of (headers req) field)) eqn:Hv;
      by eexists.
  - rewrite (credential_no_body _ _ Hb), (get_present _ _ Hq),
      (get_present _ _ Hh).
    simpl. unfold or_else.
    destruct (truthy_val (field_of (headers req) field)); [by eexists|].
    destruct (truthy_val (field_of (query req) field)) eqn:Hv;
      by eexists.
Qed.

(** C2, amended: for every request and either credential field, when the
    query and headers containers are present the value is the first truthy
    one among the body, query and header fields (body container truthy) or
    among the header and query fields (otherwise), and a falsy value when
    none is truthy; a truthy field of the first container consulted wins
    whether or not the later containers are present. *)
Theorem credential_precedence field req :
  (nullish (query req) = false → nullish (headers req) = false →
   ∃ v, credential field req = Normal v ∧
        match first_present ((λ c, field_of c field) <$> lookup_order req) with
        | Some w => v = w
        | None => truthy_val v = false
        end)
  ∧ (truthy_val (body req) = true →
     truthy_val (field_of (body req) field) = true →
     credential field req = Normal (field_of (body req) field))
  ∧ (truthy_val (body req) = false → nullish (headers req) = false →
     truthy_val (field_of (headers req) field) = true →
     credential field req = Normal (field_of (headers req) field)).
Proof.
  split; [|split].
  - apply credential_first_present.
  - intros Hb Hv. rewrite (credential_body _ _ Hb). unfold or_else.
    by rewrite Hv.
  - intros Hb Hh Hv.
    rewrite (credential_no_body _ _ Hb), (get_present _ _ Hh).
    simpl. unfold or_else. by rewrite Hv.
Qed.

(** Without a body container the header token is selected over the query
    token; with one, the body token is selected. *)
Lemma credential_precedence_witness :
  credential "access_token" Samples.header_request
    = Normal (VStr "from-header")
  ∧ credential "access_token" Samples.body_request = Normal (VStr "abc")
  ∧ ∃ v, credential "refresh_token" Samples.body_request = Normal v
         ∧ truthy_val v = false.
Proof.
  split; [|split].
  - apply (proj2 (proj2 (credential_precedence "access_token"
                           Samples.header_request))); reflexivity.
  - apply (proj1 (proj2 (credential_precedence "access_token"
                           Samples.body_request))); reflexivity.
  - apply (proj1 (credential_precedence "refresh_token"
                    Samples.body_request)); reflexivity.
Defined.

(** C10: credential extraction is partial.  With a body container whose
    access_token is falsy the query container is dereferenced, and after a
    falsy query access_token the headers container; without a body container
    the headers container is dereferenced first.  When the container so
    reached is undefined or null, [authenticate] throws a TypeError and no
    event of the attempt takes place. *)
Theorem authenticate_partial parse self req :
  (truthy_val (body req) = true →
   truthy_val (field_of (body req) "access_token") = false →
   nullish (query req) = true →
   authenticate parse self req = Throw TypeError)
  ∧ (truthy_val (body req) = true →
     truthy_val (field_of (body req) "access_token") = false →
     has_error req = false →
     truthy_val (field_of (query req) "access_token") = false →
     nullish (headers req) = true →
     authenticate parse self req = Throw TypeError)
  ∧ (truthy_val (body req) = false →
     has_error req = false →
     nullish (headers req) = true →
     authenticate parse self req = Throw TypeError).
Proof.
  split; [|split].
  - intros Hb Hv Hq. rewrite authenticate_unfold.
    assert (has_error req = false) as ->.
    { unfold has_error. by destruct (query req). }
    rewrite (credential_body "access_token" _ Hb). unfold or_else. rewrite Hv.
    by rewrite (get_nullish _ _ Hq).
  - intros Hb Hv He Hw Hh. rewrite authenticate_unfold, He.
    rewrite (credential_body "access_token" _ Hb). unfold or_else. rewrite Hv.
    destruct (nullish (query req)) eqn:Hq.
    + by rewrite (get_nullish _ _ Hq).
    + rewrite (get_present _ _ Hq). simpl. rewrite Hw.
      by rewrite (get_nullish _ _ Hh).
  - intros Hb He Hh. rewrite authenticate_unfold, He.
    rewrite (credential_no_body "access_token" _ Hb).
    by rewrite (get_nullish _ _ Hh).
Qed.

Lemma authenticate_partial_witness :
  authenticate Samples.JSON_parse
    (Samples.strategy_with [] (SkipValue VUndefined) [])
    Samples.no_query_request = Throw TypeError
  ∧ authenticate Samples.JSON_parse
      (Samples.strategy_with [] (SkipValue VUndefined) [])
      Samples.no_headers_request = Throw TypeError
  ∧ authenticate Samples.JSON_parse
      (Samples.strategy_with [] (SkipValue VUndefined) [])
      Samples.bare_request = Throw TypeError.
Proof.
  split; [|split].
  - apply (proj1 (authenticate_partial Samples.JSON_parse
                    (Samples.strategy_with [] (SkipValue VUndefined) [])
                    Samples.no_query_request)); reflexivity.
  - apply (proj1 (proj2 (authenticate_partial Samples.JSON_parse
                           (Samples.strategy_with [] (SkipValue VUndefined) [])
                           Samples.no_headers_request))); reflexivity.
  - apply (proj2 (proj2 (authenticate_partial Samples.JSON_parse
                           (Samples.strategy_with [] (SkipValue VUndefined) [])
                           Samples.bare_request))); reflexivity.
Defined.

(** ** The profile loader *)

(** A callback invoked once contributes its own events. *)
Lemma bind_once {A} (x : A) (k : A → trace) : [x] ≫= k = k x.
Proof. apply bind_singleton. Qed.

(** Filtering the events of a callback invoked several times. *)
Lemma omap_bind {A B C} (f : B → option C) (k : A → list B) (l : list A) :
  omap f (l ≫= k) = l ≫= λ x, omap f (k x).
Proof.
  induction l as [|x l IH]; [done|].
  by rewrite !bind_cons, omap_app, IH.
Qed.

Lemma fetches_verified err user info : fetches (verified err user info) = [].
Proof.
  unfold verified.
  by destruct (truthy err), (truthy user).
Qed.

(** The callback of [authenticate] fetches nothing itself. *)
Lemma fetches_loaded self req a r err profile :
  fetches (loaded self req a r err profile) = [].
Proof.
  unfold loaded. destruct (truthy err); [done|].
  unfold fetches. simpl. rewrite omap_bind.
  induction (_verify self _) as [|[[e u] i] l IH]; [done|].
  rewrite bind_cons, IH, app_nil_r. apply fetches_verified.
Qed.

Lemma loader_skip parse self tok done :
  resolves_to_skip self tok →
  _loadUserProfile parse self tok done = done VNull None.
Proof.
  unfold _loadUserProfile.
  intros [v -> Hv | f -> Hlen Hv | f err skip -> Hlen Hcall He Hs].
  - simpl. by rewrite Hv.
  - apply Nat.ltb_ge in Hlen. rewrite Hlen. simpl. by rewrite Hv.
  - apply Nat.ltb_lt in Hlen. rewrite Hlen, Hcall, bind_once.
    by rewrite He, Hs.
Qed.


Lemma loader_async_error parse self tok done f err skip :
  _skipUserProfile self = SkipFunction f →
  1 < fn_length f →
  fn_call_async f tok = [(err, skip)] →
  truthy err = true →
  _loadUserProfile parse self tok done = done err None.
Proof.
  intros Hp Hlen Hcall He. unfold _loadUserProfile.
  apply Nat.ltb_lt in Hlen. rewrite Hp, Hlen, Hcall, bind_once.
  by rewrite He.
Qed.

(** C7: for every access token, when the skip policy resolves to skip (a
    truthy value such as true, a synchronous predicate returning a truthy
    value, or an asynchronous predicate reporting skip), the loader does
    nothing but complete with [(null, undefined)], and the attempt fetches
    nothing. *)
Theorem skip_completes_without_profile parse self tok :
  resolves_to_skip self tok →
  (∀ done, _loadUserProfile parse self tok done = done VNull None)
  ∧ (∀ req a r,
       fetches (_loadUserProfile parse self tok (loaded self req a r)) = []).
Proof.
  intros Hskip. split.
  - intros done. by apply loader_skip.
  - intros req a r. rewrite loader_skip by done. apply fetches_loaded.
Qed.

(** The three shapes of a skipping policy, each completing the recording
    callback once with no error and no profile. *)
Lemma skip_completes_without_profile_witness :
  let record (err : any) (profile : option Profile) : trace :=
    [Signal (Success err
               (match profile with Some _ => VBool true | None => VUndefined
                end))] in
  _loadUserProfile Samples.JSON_parse
    (Samples.strategy_with [] (SkipValue (VBool true)) []) (VStr "abc") record
    = [Signal (Success VNull VUndefined)]
  ∧ _loadUserProfile Samples.JSON_parse
      (Samples.strategy_with []
         (SkipFunction (Samples.sync_predicate (VStr "yes"))) [])
      (VStr "abc") record
    = [Signal (Success VNull VUndefined)]
  ∧ _loadUserProfile Samples.JSON_parse
      (Samples.strategy_with []
         (SkipFunction (Samples.async_predicate VNull (VBool true))) [])
      (VStr "abc") record
    = [Signal (Success VNull VUndefined)].
Proof.
  intros record. split; [|split].
  - apply (skip_completes_without_profile Samples.JSON_parse
             (Samples.strategy_with [] (SkipValue (VBool true)) [])
             (VStr "abc")).
    by apply (skip_by_value _ _ (VBool true)).
  - apply (skip_completes_without_profile Samples.JSON_parse
             (Samples.strategy_with []
                (SkipFunction (Samples.sync_predicate (VStr "yes"))) [])
             (VStr "abc")).
    apply (skip_by_sync _ _ (Samples.sync_predicate (VStr "yes")));
      [reflexivity | simpl; lia | reflexivity].
  - apply (skip_completes_without_profile Samples.JSON_parse
             (Samples.strategy_with []
                (SkipFunction (Samples.async_predicate VNull (VBool true))) [])
             (VStr "abc")).
    apply (skip_by_async _ _ (Samples.async_predicate VNull (VBool true))
             VNull (VBool true));
      [reflexivity | simpl; lia | reflexivity | reflexivity | reflexivity].
Defined.

(** C8: for every access token, when the skip policy is a function of two
    (or more) parameters and reports an error, the loader does nothing but
    complete with exactly that error, and the attempt fetches nothing. *)
Theorem async_skip_error_propagates parse self tok f err skip :
  _skipUserProfile self = SkipFunction f →
  1 < fn_length f →
  fn_call_async f tok = [(err, skip)] →
  truthy err = true →
  (∀ done, _loadUserProfile parse self tok done = done err None)
  ∧ (∀ req a r,
       fetches (_loadUserProfile parse self tok (loaded self req a r)) = []).
Proof.
  intros Hp Hlen Hcall He. split.
  - intros done. by eapply loader_async_error.
  - intros req a r.
    rewrite (loader_async_error _ _ _ _ _ _ _ Hp Hlen Hcall He).
    apply fetches_loaded.
Qed.

Lemma async_skip_error_propagates_witness :
  _loadUserProfile Samples.JSON_parse
    (Samples.strategy_with [(Data VNull, VStr "null")]
       (SkipFunction (Samples.async_predicate (VStr "boom") VUndefined)) [])
    (VStr "abc")
    (λ err _, [Signal (Error err)])
  = [Signal (Error (VStr "boom"))].
Proof.
  apply (async_skip_error_propagates Samples.JSON_parse
           (Samples.strategy_with [(Data VNull, VStr "null")]
              (SkipFunction (Samples.async_predicate (VStr "boom") VUndefined))
              [])
           (VStr "abc") (Samples.async_predicate (VStr "boom") VUndefined)
           (VStr "boom") VUndefined);
    [reflexivity | simpl; lia | reflexivity | reflexivity].
Defined.

(** ** The profile fetcher *)



(** The profile built from a parsed response that is neither undefined nor
    null. *)
Lemma parse_profile_present parse url body json :
  parse (to_string body) = Some json →
  nullish json = false →
  parse_profile parse url body = Normal (normalized url body json).
Proof.
  intros Hp Hj. unfold parse_profile, normalized.
  rewrite Hp. simpl. rewrite !(get_present _ _ Hj), (get_sub_present _ Hj).
  simpl. by destruct (truthy_val (field_of json "id")).
Qed.



(** ** Profile-load errors *)




(** ** End to end *)

(** A token in the body, a provider response with the sub claim, an accepting
    verify callback: the one GET, the verify call with the credentials and
    the normalized profile, and the success outcome. *)
Example authenticate_end_to_end :
  authenticate Samples.JSON_parse
    (Samples.strategy_with [(Data VNull, VStr Samples.response_sub)]
       (SkipValue VUndefined) [(Data VNull, Samples.user_1, Data VNull)])
    Samples.body_request
  = Normal
      [Get "https://www.googleapis.com/oauth2/v3/tokeninfo?id_token=abc";
       Verify
         (WithoutReq (VStr "abc") VUndefined
            (Some
               {| profileUrl :=
                    "https://www.googleapis.com/oauth2/v3/tokeninfo?id_token=abc";
                  provider := "google";
                  id := VStr "42";
                  displayName := VStr "A B";
                  name := {| familyName := VUndefined;
                             givenName := VUndefined |};
                  emails := [ {| value := VStr "a@b.com" |} ];
                  _raw := VStr Samples.response_sub;
                  _json := Samples.claims_sub |}));
       Signal (Success Samples.user_1 VNull)].
Proof. reflexivity. Qed.

(** ** Strategy construction *)

Lemma or_val_truthy a b :
  truthy_val b = true → truthy_val (Construction.or_val a b) = true.
Proof.
  intros Hb. unfold Construction.or_val.
  by destruct (truthy_val a) eqn:Ha.
Qed.

Lemma or_val_idem a b :
  truthy_val a = true → Construction.or_val a b = a.
Proof. intros Ha. unfold Construction.or_val. by rewrite Ha. Qed.

(** The endpoints among the options a construction leaves behind. *)
Lemma construction_lookup {V : Type} (opts : option (gmap string val))
    (verify : V) :
  ∃ a t,
    Construction.options (Construction.GoogleTokenStrategy opts verify)
      !! "authorizationURL" = Some a
    ∧ Construction.options (Construction.GoogleTokenStrategy opts verify)
        !! "tokenURL" = Some t
    ∧ a = Construction.or_val
            (default VUndefined (default ∅ opts !! "authorizationURL"))
            (VStr Construction.authorizationURL_default)
    ∧ t = Construction.or_val
            (default VUndefined (default ∅ opts !! "tokenURL"))
            (VStr Construction.tokenURL_default)
    ∧ truthy_val a = true ∧ truthy_val t = true.
Proof.
  eexists _, _. split; [|split; [|split; [done|split; [done|]]]].
  - simpl. rewrite lookup_insert_ne by done. apply lookup_insert_eq.
  - simpl. rewrite lookup_insert_eq. by rewrite lookup_insert_ne.
  - split; by apply or_val_truthy.
Qed.

(** X1: whatever options the constructor is given, the options it hands to
    the base carry both endpoints, each truthy: the configured one when that
    is truthy, the provider's canonical endpoint otherwise.  The instance is
    named google-token and the verify callback is handed on as it is. *)
Theorem construction_endpoints {V : Type} (opts : option (gmap string val))
    (verify : V) :
  let i := Construction.GoogleTokenStrategy opts verify in
  let given k := default VUndefined (default ∅ opts !! k) in
  Construction.options i !! "authorizationURL"
    = Some (if truthy_val (given "authorizationURL")
            then given "authorizationURL"
            else VStr Construction.authorizationURL_default)
  ∧ Construction.options i !! "tokenURL"
    = Some (if truthy_val (given "tokenURL")
            then given "tokenURL"
            else VStr Construction.tokenURL_default)
  ∧ (∀ k, k = "authorizationURL" ∨ k = "tokenURL" →
       ∃ url, Construction.options i !! k = Some url
              ∧ truthy_val url = true)
  ∧ Construction.name i = "google-token"
  ∧ Construction.verify i = verify.
Proof.
  intros i given.
  destruct (construction_lookup opts verify)
    as (a & t & Ha & Ht & -> & -> & Hta & Htt).
  repeat split; [exact Ha | exact Ht |].
  intros k [-> | ->]; eauto.
Qed.

(** X2: every option other than the two endpoints reaches the base exactly
    as the caller configured it (an option the caller left out stays
    out). *)
Theorem construction_passes_options {V : Type}
    (opts : option (gmap string val)) (verify : V) (k : string) :
  k ≠ "authorizationURL" →
  k ≠ "tokenURL" →
  Construction.options (Construction.GoogleTokenStrategy opts verify) !! k
    = default ∅ opts !! k.
Proof.
  intros Ha Ht. simpl.
  rewrite lookup_insert_ne by done. by rewrite lookup_insert_ne.
Qed.

Lemma construction_passes_options_witness :
  Construction.options
    (Construction.GoogleTokenStrategy
       (Some {[ "clientID" := VStr "123-456-789";
                "tokenURL" := VStr "https://example.net/token" ]}) tt)
    !! "clientID"
  = Some (VStr "123-456-789").
Proof.
  rewrite (construction_passes_options
             (Some {[ "clientID" := VStr "123-456-789";
                      "tokenURL" := VStr "https://example.net/token" ]})
             tt "clientID"); [reflexivity | done | done].
Defined.

(** Options that already carry truthy endpoints are left as they are. *)
Lemma construction_fixed {V : Type} (m : gmap string val) (verify : V) a t :
  m !! "authorizationURL" = Some a → truthy_val a = true →
  m !! "tokenURL" = Some t → truthy_val t = true →
  Construction.options (Construction.GoogleTokenStrategy (Some m) verify) = m.
Proof.
  intros Ha Hta Ht Htt. simpl.
  rewrite Ha. simpl. rewrite (or_val_idem _ _ Hta), (insert_id _ _ _ Ha).
  rewrite Ht. simpl. rewrite (or_val_idem _ _ Htt). by apply insert_id.
Qed.

(** X3: defaulting is idempotent: constructing again from the options a
    construction left behind leaves them as they are. *)
Theorem construction_idempotent {V : Type} (opts : option (gmap string val))
    (verify : V) :
  Construction.GoogleTokenStrategy
    (Some (Construction.options
             (Construction.GoogleTokenStrategy opts verify))) verify
  = Construction.GoogleTokenStrategy opts verify.
Proof.
  destruct (construction_lookup opts verify)
    as (a & t & Ha & Ht & _ & _ & Hta & Htt).
  pose proof (construction_fixed _ verify a t Ha Hta Ht Htt) as Hfix.
  set (m := Construction.options
              (Construction.GoogleTokenStrategy opts verify)) in *.
  change (Construction.GoogleTokenStrategy opts verify)
    with (Construction.Build_instance V m verify "google-token").
  rewrite <- Hfix at 2. reflexivity.
Qed.

(** ** When extraction throws *)

Lemma get_cases o k :
  get o k = if nullish o then Throw TypeError else Normal (field_of o k).
Proof. by destruct o. Qed.

Lemma credential_cases field req :
  credential field req =
    if reaches_missing field req then Throw TypeError
    else Normal
           (if truthy_val (body req) then
              if truthy_val (field_of (body req) field)
              then field_of (body req) field
              else if truthy_val (field_of (query req) field)
                   then field_of (query req) field
                   else field_of (headers req) field
            else
              if truthy_val (field_of (headers req) field)
              then field_of (headers req) field
              else field_of (query req) field).
Proof.
  unfold reaches_missing.
  destruct (truthy_val (body req)) eqn:Hb.
  - rewrite (credential_body _ _ Hb), !get_cases. unfold or_else.
    destruct (truthy_val (field_of (body req) field)); [done|].
    destruct (nullish (query req)); [done|]. simpl.
    destruct (truthy_val (field_of (query req) field)); [done|].
    by destruct (nullish (headers req)).
  - rewrite (credential_no_body _ _ Hb), !get_cases. unfold or_else.
    destruct (nullish (headers req)); [done|]. simpl.
    destruct (truthy_val (field_of (headers req) field)); [done|].
    by destruct (nullish (query req)).
Qed.

(** X4: reading a credential throws exactly when it reaches a container that
    is undefined or null, and what it throws is a TypeError; a container
    that is never reached (the query and headers behind a truthy body token,
    the query behind a truthy header token) may be missing. *)
Theorem credential_throws field req e :
  credential field req = Throw e
  ↔ e = TypeError ∧ reaches_missing field req = true.
Proof.
  rewrite credential_cases.
  destruct (reaches_missing field req); split.
  - by intros [= <-].
  - by intros [-> _].
  - discriminate.
  - by intros [_ ?].
Qed.

Lemma credential_throws_witness :
  credential "refresh_token" Samples.no_headers_request = Throw TypeError.
Proof.
  apply (credential_throws "refresh_token" Samples.no_headers_request
           TypeError).
  by split.
Defined.

(** ** The parse step *)

Lemma parse_profile_cases parse url body :
  parse_profile parse url body =
    match parse (to_string body) with
    | None => Throw SyntaxError
    | Some json =>
        if nullish json then Throw TypeError
        else Normal (normalized url body json)
    end.
Proof.
  destruct (parse (to_string body)) as [json|] eqn:Hp.
  - destruct (nullish json) eqn:Hj.
    + unfold parse_profile. rewrite Hp. simpl.
      by rewrite (get_nullish json "id" Hj).
    + by rewrite (parse_profile_present _ _ _ _ Hp Hj).
  - unfold parse_profile. by rewrite Hp.
Qed.

(** ** Where the events of an attempt come from *)


Lemma elem_of_verified ev e u i :
  ev ∈ verified e u i →
  (ev = Signal (Error e) ∧ truthy e = true)
  ∨ (ev = Signal (Fail i) ∧ truthy e = false ∧ truthy u = false)
  ∨ (ev = Signal (Success u i) ∧ truthy e = false ∧ truthy u = true).
Proof.
  unfold verified.
  destruct (truthy e), (truthy u); simpl;
    intros ->%list_elem_of_singleton; auto.
Qed.











(** ** Where outcomes come from *)






(** ** Attempts end to end *)




(** ** Runs *)

Lemma total_emit t : Full.total (Full.emit t) = t.
Proof. unfold Full.total. simpl. apply app_nil_r. Qed.

Lemma total_seq_emit t r :
  Full.total (Full.seq (Full.emit t) r) = t ++ Full.total r.
Proof. unfold Full.total, Full.seq. simpl. by rewrite (assoc_L (++)). Qed.

Lemma thrown_seq_emit t r :
  Full.thrown (Full.seq (Full.emit t) r) = Full.thrown r.
Proof. done. Qed.

(** The events of a sequence are those of its parts. *)
Lemma elem_of_total_seq ev first next :
  ev ∈ Full.total (Full.seq first next) →
  ev ∈ Full.total first ∨ ev ∈ Full.total next.
Proof.
  unfold Full.total, Full.seq. destruct (Full.thrown first); simpl.
  - by left.
  - rewrite !elem_of_app. tauto.
Qed.

(** The events of a guarded block are those of the block and, when it
    throws, of the handler. *)
Lemma elem_of_total_try ev body handler :
  ev ∈ Full.total (Full.try_catch body handler) →
  ev ∈ Full.total body
  ∨ ∃ e, Full.thrown body = Some e ∧ ev ∈ Full.total (handler e).
Proof.
  unfold Full.total, Full.try_catch.
  destruct (Full.thrown body) as [e|]; simpl; [|by left].
  rewrite !elem_of_app. intros [[?|?]|[?|?]]; [by left; left| |by left; right|];
    right; exists e; (split; [done|]); apply elem_of_app; tauto.
Qed.

(** The invocations a delegated call makes before it completes. *)
Lemma elem_of_total_now {A} ev (callback : A → Full.run) xs :
  ev ∈ Full.total
         (foldr (λ x rest, Full.seq (callback x) rest) (Full.emit []) xs) →
  ∃ x, x ∈ xs ∧ ev ∈ Full.total (callback x).
Proof.
  induction xs as [|x xs IH]; simpl.
  - by intros ?%elem_of_nil.
  - intros [Hev | Hev]%elem_of_total_seq.
    + exists x. split; [apply list_elem_of_here | done].
    + destruct (IH Hev) as (y & Hy & Hin).
      exists y. split; [by apply list_elem_of_further | done].
Qed.

(** Every event of a delegated call belongs to one of the invocations of
    its callback. *)
Lemma elem_of_total_call {A} ev (b : Full.behaviour A) callback :
  ev ∈ Full.total (Full.call b callback) →
  ∃ x, x ∈ Full.now b ++ Full.later b ∧ ev ∈ Full.total (callback x).
Proof.
  unfold Full.call, Full.total at 1. simpl.
  rewrite (assoc_L (++)). intros [Hev | Hev]%elem_of_app.
  - apply (elem_of_total_seq ev _ _) in Hev as [Hev | Hev].
    + apply elem_of_total_now in Hev as (x & Hx & Hev).
      exists x. split; [apply elem_of_app; by left | done].
    + by apply elem_of_nil in Hev.
  - apply list_elem_of_bind in Hev as (x & Hev & Hx).
    exists x. split; [apply elem_of_app; by right | done].
Qed.

(** A callback that never throws leaves the completion of a delegated call
    to the delegated code. *)
Lemma thrown_now {A} (callback : A → Full.run) xs :
  (∀ x, Full.thrown (callback x) = None) →
  Full.thrown
    (foldr (λ x rest, Full.seq (callback x) rest) (Full.emit []) xs) = None.
Proof.
  intros Hk. induction xs as [|x xs IH]; [done|].
  simpl. unfold Full.seq. by rewrite Hk.
Qed.

Lemma thrown_call {A} (b : Full.behaviour A) callback :
  (∀ x, Full.thrown (callback x) = None) →
  Full.thrown (Full.call b callback) = Full.completes b.
Proof.
  intros Hk. unfold Full.call. simpl. unfold Full.seq.
  by rewrite (thrown_now _ _ Hk).
Qed.

(** A run followed by a step without events has the events of the run. *)
Lemma total_seq_silent r c :
  Full.total
    (Full.seq r {| Full.events := []; Full.thrown := c;
                   Full.afterwards := [] |})
  = Full.total r.
Proof.
  unfold Full.seq, Full.total.
  destruct (Full.thrown r); simpl; by rewrite ?app_nil_r.
Qed.

(** A delegated call that invokes its callback once, before or after it
    completes, has the events of that invocation. *)
Lemma total_call_once {A} (b : Full.behaviour A) callback x :
  Full.delivers_once b x →
  Full.total (Full.call b callback) = Full.total (callback x).
Proof.
  unfold Full.delivers_once. intros Hb.
  unfold Full.call, Full.total at 1. simpl. rewrite (assoc_L (++)).
  fold (Full.total
          (Full.seq
             (foldr (λ x rest, Full.seq (callback x) rest) (Full.emit [])
                (Full.now b))
             {| Full.events := []; Full.thrown := Full.completes b;
                Full.afterwards := [] |})).
  rewrite total_seq_silent.
  destruct (Full.now b) as [|y [|z ys]] eqn:Hnow; simpl in Hb.
  - rewrite Hb. simpl. by rewrite app_nil_r.
  - injection Hb as -> Hlater. rewrite Hlater. simpl.
    change (Full.emit []) with
      {| Full.events := []; Full.thrown := None; Full.afterwards := [] |}.
    by rewrite total_seq_silent, app_nil_r.
  - by destruct ys.
Qed.

(** A delegated call that never invokes its callback has no events. *)
Lemma total_call_never {A} (b : Full.behaviour A) callback :
  Full.now b ++ Full.later b = [] →
  Full.total (Full.call b callback) = [].
Proof.
  intros [Hnow Hlater]%app_eq_nil.
  unfold Full.call, Full.total. by rewrite Hnow, Hlater.
Qed.

Lemma at_most_one {A} (l : list A) :
  length l ≤ 1 → l = [] ∨ ∃ x, l = [x].
Proof.
  destruct l as [|x [|y l]]; simpl; [by left | by right; exists x | lia].
Qed.

Lemma exactly_one {A} (l : list A) : length l = 1 → ∃ x, l = [x].
Proof. destruct l as [|x [|y l]]; simpl; [lia | by exists x | lia]. Qed.

(** ** The fetcher in full *)

Lemma build_profile_cases parse url body :
  Full.build_profile parse url body =
    if stringifies body then
      match parse (to_string body) with
      | None => Throw SyntaxError
      | Some json =>
          if nullish json then Throw TypeError
          else Normal (normalized url body json)
      end
    else Throw TypeError.
Proof.
  rewrite <- parse_profile_cases.
  unfold Full.build_profile, ToString. by destruct (stringifies body).
Qed.

(** The fetcher when the HTTP client invokes its callback once. *)
Lemma userProfile_full_once parse self tok done err body :
  stringifies tok = true →
  Full.delivers_once
    (Full._oauth2_get self (tokeninfo +:+ to_string tok)) (err, body) →
  Full.total (Full.userProfile parse self tok done) =
    Get (tokeninfo +:+ to_string tok) ::
    Full.total
      (Full.fetched parse (tokeninfo +:+ to_string tok) done err body).
Proof.
  intros Htok Hget. unfold Full.userProfile, ToString. rewrite Htok. simpl.
  by rewrite total_seq_emit, (total_call_once _ _ _ Hget).
Qed.

(** C5, as stated, fails: the response text null converts and parses
    successfully, yet no profile is built from it; reading its id throws,
    the fetcher completes with that TypeError and without a profile, and the
    attempt fails without the verify callback being called. *)
Lemma fetched_profile_counterexample :
  stringifies (VStr "null") = true
  ∧ Samples.JSON_parse (to_string (VStr "null")) = Some VNull
  ∧ Full.total
      (Full.userProfile Samples.JSON_parse
         (Samples.full_with [(Data VNull, VStr "null")]
            (Full.SkipValue VUndefined) [] None)
         (VStr "abc") Samples.recording)
    = [Get Samples.sample_url;
       Signal (Error TypeError);
       Verify (WithoutReq VNull VNull None)]
  ∧ Full.total
      (Full.authenticate Samples.JSON_parse
         (Samples.full_with [(Data VNull, VStr "null")]
            (Full.SkipValue VUndefined)
            [(Data VNull, Samples.user_1, Data VNull)] None)
         Samples.body_request)
    = [Get Samples.sample_url; Signal (Fail TypeError)].
Proof. repeat split. Qed.

(** C5, amended: for every provider response that the HTTP client delivers
    once and without error, whose body converts to a string and parses to a
    value other than null (or undefined), the fetcher issues its GET and
    then completes with a profile, inside its guarded block; the profile's
    provider is the constant google, its profileUrl is the URL of that GET,
    its emails is the one-element sequence holding the email claim, and its
    id is the id claim when that is truthy and the sub claim otherwise, in
    particular when the response has no id field. *)
Theorem fetched_profile parse self tok done err body json :
  stringifies tok = true →
  Full.delivers_once
    (Full._oauth2_get self (tokeninfo +:+ to_string tok)) (err, body) →
  truthy err = false →
  stringifies body = true →
  parse (to_string body) = Some json →
  nullish json = false →
  ∃ p,
    Full.total (Full.userProfile parse self tok done) =
      Get (tokeninfo +:+ to_string tok) ::
      Full.total
        (Full.try_catch (done VNull (Some p)) (λ e, done e None))
    ∧ provider p = "google"
    ∧ profileUrl p = tokeninfo +:+ to_string tok
    ∧ emails p = [ {| value := field_of json "email" |} ]
    ∧ (truthy_val (field_of json "id") = true
       → id p = Data (field_of json "id"))
    ∧ (truthy_val (field_of json "id") = false → id p = sub_of json)
    ∧ (∀ claims : gmap string val,
         json = VObj claims → claims !! "id" = None →
         id p = Data (default VUndefined (claims !! "sub"))).
Proof.
  intros Htok Hget Herr Hbody Hparse Hjson.
  exists (normalized (tokeninfo +:+ to_string tok) body json). split.
  { rewrite (userProfile_full_once _ _ _ _ _ _ Htok Hget).
    unfold Full.fetched.
    by rewrite Herr, build_profile_cases, Hbody, Hparse, Hjson. }
  simpl. repeat split.
  - by intros ->.
  - by intros ->.
  - intros claims -> Hid. simpl. by rewrite Hid.
Qed.

(** The spec's example: a response with sub 42 and no id gives the id 42. *)
Lemma fetched_profile_witness :
  ∃ p,
    Full.total
      (Full.userProfile Samples.JSON_parse
         (Samples.full_with [(Data VNull, VStr Samples.response_sub)]
            (Full.SkipValue VUndefined) [] None)
         (VStr "abc") Samples.recording)
    = [Get Samples.sample_url;
       Signal (Error VNull);
       Verify (WithoutReq VNull VNull (Some p))]
    ∧ id p = VStr "42"
    ∧ provider p = "google"
    ∧ emails p = [ {| value := VStr "a@b.com" |} ].
Proof.
  destruct (fetched_profile Samples.JSON_parse
              (Samples.full_with [(Data VNull, VStr Samples.response_sub)]
                 (Full.SkipValue VUndefined) [] None)
              (VStr "abc") Samples.recording
              VNull (VStr Samples.response_sub) Samples.claims_sub
              eq_refl eq_refl eq_refl eq_refl eq_refl eq_refl)
    as (p & Hrun & Hprov & _ & Hmail & _ & Hid & _).
  exists p. repeat split; [exact Hrun | by apply Hid | exact Hprov | exact Hmail].
Defined.

(** ** The load callback in full *)

Lemma thrown_verified err user info :
  Full.thrown (Full.verified err user info) = None.
Proof.
  unfold Full.verified. by destruct (truthy err), (truthy user).
Qed.

Lemma total_verified err user info :
  ∃ o, Full.total (Full.verified err user info) = [Signal o]
       ∧ [Signal o] = verified err user info.
Proof.
  unfold Full.verified, verified.
  destruct (truthy err), (truthy user); by eexists.
Qed.

(** The load callback throws what the verify callback throws, and nothing
    else. *)
Lemma thrown_loaded self req a r err p :
  Full.thrown (Full.loaded self req a r err p) =
    if truthy err then None
    else Full.completes
           (Full._verify self (Full.verify_args_for self req a r p)).
Proof.
  unfold Full.loaded. destruct (truthy err); [done|].
  rewrite thrown_seq_emit. apply thrown_call.
  intros [[e u] i]. apply thrown_verified.
Qed.

Lemma total_loaded self req a r err p :
  Full.total (Full.loaded self req a r err p) =
    if truthy err then [Signal (Fail err)]
    else Verify (Full.verify_args_for self req a r p)
         :: Full.total
              (Full.call
                 (Full._verify self (Full.verify_args_for self req a r p))
                 (λ '(e, u, i), Full.verified e u i)).
Proof.
  unfold Full.loaded. destruct (truthy err); [done|].
  by rewrite total_seq_emit.
Qed.

(** With a verify callback that invokes its continuation at most once, the
    load callback calls verify at most once and signals at most once, after
    it. *)
Lemma loaded_in_order self req a r err p :
  Full.at_most_once self →
  ∃ calls signals,
    Full.total (Full.loaded self req a r err p)
      = (Verify <$> calls) ++ (Signal <$> signals)
    ∧ length calls ≤ 1 ∧ length signals ≤ 1.
Proof.
  intros (_ & Hverify & _). rewrite total_loaded.
  destruct (truthy err).
  { exists [], [Fail err]. shaped. }
  destruct (at_most_one _ (Hverify (Full.verify_args_for self req a r p)))
    as [Hnone | ([[e u] i] & Hone)].
  - rewrite (total_call_never _ _ Hnone).
    exists [Full.verify_args_for self req a r p], []. shaped.
  - rewrite (total_call_once _ _ _ Hone).
    destruct (total_verified e u i) as (o & -> & _).
    exists [Full.verify_args_for self req a r p], [o]. shaped.
Qed.

(** With a verify callback that invokes its continuation exactly once, the
    load callback signals exactly once. *)
Lemma loaded_signals_once self req a r err p :
  Full.exactly_once self →
  ∃ o, outcomes (Full.total (Full.loaded self req a r err p)) = [o].
Proof.
  intros (_ & Hverify & _). rewrite total_loaded.
  destruct (truthy err); [by eexists|].
  destruct (exactly_one _ (Hverify (Full.verify_args_for self req a r p)))
    as ([[e u] i] & Hone).
  rewrite (total_call_once _ _ _ Hone).
  destruct (total_verified e u i) as (o & -> & _). by exists o.
Qed.

(** ** The loader in full *)

(** The callback [userProfile] hands to the HTTP client completes [done]
    once, and does not throw, when [done] does not throw. *)
Lemma fetched_completes parse url done err body :
  (∀ e p, Full.thrown (done e p) = None) →
  Full.thrown (Full.fetched parse url done err body) = None
  ∧ ∃ e p, Full.total (Full.fetched parse url done err body)
           = Full.total (done e p).
Proof.
  intros Hdone. unfold Full.fetched.
  destruct (truthy err); [by eauto|].
  destruct (Full.build_profile parse url body) as [profile|e]; simpl.
  - unfold Full.try_catch. rewrite Hdone. eauto.
  - unfold Full.try_catch, Full.total. simpl. rewrite Hdone. eauto.
Qed.

(** The fetcher with an HTTP client that invokes its callback at most once:
    nothing when the token does not convert, else the GET, followed by at
    most one completion. *)
Lemma userProfile_form parse self tok done :
  Full.at_most_once self →
  (∀ e p, Full.thrown (done e p) = None) →
  ∃ gets, length gets ≤ 1
    ∧ (Full.total (Full.userProfile parse self tok done) = Get <$> gets
       ∨ ∃ e p, Full.total (Full.userProfile parse self tok done)
                = (Get <$> gets) ++ Full.total (done e p)).
Proof.
  intros (Hget & _) Hdone. unfold Full.userProfile, ToString.
  destruct (stringifies tok); simpl; [|exists []; split; [simpl; lia | by left]].
  exists [tokeninfo +:+ to_string tok]. split; [done|].
  rewrite total_seq_emit.
  destruct (at_most_one _ (Hget (tokeninfo +:+ to_string tok)))
    as [Hnone | ([err body] & Hone)].
  - left. by rewrite (total_call_never _ _ Hnone).
  - right. rewrite (total_call_once _ _ _ Hone).
    destruct (fetched_completes parse (tokeninfo +:+ to_string tok)
                done err body Hdone) as (_ & e & p & ->).
    by exists e, p.
Qed.

(** The fetcher with an HTTP client that returns and invokes its callback
    exactly once, for a token that converts: the GET, one completion, no
    exception. *)
Lemma userProfile_form_exact parse self tok done :
  Full.exactly_once self →
  Full.returns_normally self →
  stringifies tok = true →
  (∀ e p, Full.thrown (done e p) = None) →
  Full.thrown (Full.userProfile parse self tok done) = None
  ∧ ∃ gets e p, Full.total (Full.userProfile parse self tok done)
                = (Get <$> gets) ++ Full.total (done e p).
Proof.
  intros (Hget & _) (Hret & _) Htok Hdone.
  unfold Full.userProfile, ToString. rewrite Htok. unfold Full.run_of. split.
  - rewrite thrown_seq_emit, thrown_call; [apply Hret|].
    intros [err body]. by apply fetched_completes.
  - destruct (exactly_one _ (Hget (tokeninfo +:+ to_string tok)))
      as ([err body] & Hone).
    rewrite total_seq_emit, (total_call_once _ _ _ Hone).
    destruct (fetched_completes parse (tokeninfo +:+ to_string tok)
                done err body Hdone) as (_ & e & p & ->).
    by exists [tokeninfo +:+ to_string tok], e, p.
Qed.

Lemma loader_form parse self tok done :
  Full.at_most_once self →
  (∀ e p, Full.thrown (done e p) = None) →
  ∃ gets, length gets ≤ 1
    ∧ (Full.total (Full._loadUserProfile parse self tok done) = Get <$> gets
       ∨ ∃ e p, Full.total (Full._loadUserProfile parse self tok done)
                = (Get <$> gets) ++ Full.total (done e p)).
Proof.
  intros Hself Hdone.
  pose proof (userProfile_form parse self tok done Hself Hdone) as Hload.
  assert (∀ e p, ∃ gets, length gets ≤ 1
            ∧ (Full.total (done e p) = Get <$> gets
               ∨ ∃ e' p', Full.total (done e p)
                          = (Get <$> gets) ++ Full.total (done e' p')))
    as Hback.
  { intros e p. exists []. split; [simpl; lia|]. right. by exists e, p. }
  destruct Hself as (_ & _ & Hskip).
  unfold Full._loadUserProfile.
  destruct (Full._skipUserProfile self) as [v|f] eqn:Hpol.
  - simpl. destruct (truthy v); [apply Hback | apply Hload].
  - destruct (1 <? Full.fn_length f) eqn:Hlen.
    + apply Nat.ltb_lt in Hlen.
      destruct (at_most_one _ (Hskip f tok eq_refl Hlen))
        as [Hnone | ([err skip] & Hone)].
      * rewrite (total_call_never _ _ Hnone).
        exists []. split; [simpl; lia | by left].
      * rewrite (total_call_once _ _ _ Hone).
        destruct (truthy err); [apply Hback|].
        destruct (truthy skip); [apply Hback | apply Hload].
    + destruct (Full.fn_call f) as [skip|e]; simpl.
      * destruct (truthy skip); [apply Hback | apply Hload].
      * exists []. split; [simpl; lia | by left].
Qed.

Lemma loader_form_exact parse self tok done :
  Full.exactly_once self →
  Full.returns_normally self →
  stringifies tok = true →
  (∀ e p, Full.thrown (done e p) = None) →
  Full.thrown (Full._loadUserProfile parse self tok done) = None
  ∧ ∃ gets e p, Full.total (Full._loadUserProfile parse self tok done)
                = (Get <$> gets) ++ Full.total (done e p).
Proof.
  intros Hself Hret Htok Hdone.
  pose proof (userProfile_form_exact parse self tok done Hself Hret Htok Hdone)
    as Hload.
  assert (∀ e p, Full.thrown (done e p) = None
            ∧ ∃ gets e' p', Full.total (done e p)
                            = (Get <$> gets) ++ Full.total (done e' p'))
    as Hback.
  { intros e p. split; [apply Hdone|]. by exists [], e, p. }
  destruct Hself as (_ & _ & Hskip). destruct Hret as (_ & _ & Hpol).
  unfold Full._loadUserProfile.
  destruct (Full._skipUserProfile self) as [v|f] eqn:Hf.
  - simpl. destruct (truthy v); [apply Hback | apply Hload].
  - specialize (Hpol f eq_refl).
    destruct (1 <? Full.fn_length f) eqn:Hlen.
    + apply Nat.ltb_lt in Hlen.
      destruct (exactly_one _ (Hskip f tok eq_refl Hlen))
        as ([err sk] & Hone).
      assert (∀ x : any * any,
                Full.thrown
                  (let '(err, skip) := x in
                   if truthy err then done err None
                   else if negb (truthy skip)
                        then Full.userProfile parse self tok done
                        else done VNull None) = None) as Hnever.
      { intros [err' sk']. destruct (truthy err'); [apply Hdone|].
        destruct (truthy sk'); [apply Hdone | apply Hload]. }
      split; [by rewrite (thrown_call _ _ Hnever)|].
      rewrite (total_call_once _ _ _ Hone).
      destruct (truthy err); [apply Hback|].
      destruct (truthy sk); [apply Hback | apply Hload].
    + destruct Hpol as (skip & Hcall). rewrite Hcall. simpl.
      destruct (truthy skip); [apply Hback | apply Hload].
Qed.

Lemma authenticate_full_unfold parse self req :
  Full.authenticate parse self req =
    if has_error req then Full.emit [Signal (Fail VUndefined)]
    else
      Full.run_of (credential "access_token" req) (λ accessToken,
        Full.run_of (credential "refresh_token" req) (λ refreshToken,
          Full._loadUserProfile parse self accessToken
            (Full.loaded self req accessToken refreshToken))).
Proof.
  unfold Full.authenticate.
  destruct (error_guard req) as (e & -> & <-).
  reflexivity.
Qed.

Lemma outcomes_gets gets t : outcomes ((Get <$> gets) ++ t) = outcomes t.
Proof.
  unfold outcomes. rewrite omap_app.
  by induction gets as [|g gets IH].
Qed.

Lemma outcomes_calls calls signals :
  outcomes ((Verify <$> calls) ++ (Signal <$> signals)) = signals.
Proof.
  unfold outcomes. rewrite omap_app.
  assert (omap (λ e, match e with Signal o => Some o | _ => None end)
            (Verify <$> calls) = []) as ->.
  { by induction calls as [|c calls IH]. }
  simpl. induction signals as [|o signals IH]; [done|].
  simpl. by f_equal.
Qed.

(** ** One outcome *)

(** C9, as stated, fails in both directions.  A verify callback that
    returns without ever invoking its continuation invokes it at most once,
    and the attempt then signals no outcome at all.  A verify callback that
    invokes its continuation once and then throws is called inside the
    guarded block of the fetcher, which catches the exception and completes
    the load a second time: the attempt signals success and then fail. *)
Lemma single_outcome_counterexample :
  Full.at_most_once
    (Samples.full_with [] (Full.SkipValue (VBool true)) [] None)
  ∧ Full.returns_normally
      (Samples.full_with [] (Full.SkipValue (VBool true)) [] None)
  ∧ Full.total
      (Full.authenticate Samples.JSON_parse
         (Samples.full_with [] (Full.SkipValue (VBool true)) [] None)
         Samples.body_request)
    = [Verify (WithoutReq (VStr "abc") VUndefined None)]
  ∧ outcomes [Verify (WithoutReq (VStr "abc") VUndefined None)] = []
  ∧ Full.at_most_once
      (Samples.full_with [(Data VNull, VStr Samples.response_sub)]
         (Full.SkipValue VUndefined)
         [(Data VNull, Samples.user_1, Data VNull)]
         (Some (Data (VStr "boom"))))
  ∧ outcomes
      (Full.total
         (Full.authenticate Samples.JSON_parse
            (Samples.full_with [(Data VNull, VStr Samples.response_sub)]
               (Full.SkipValue VUndefined)
               [(Data VNull, Samples.user_1, Data VNull)]
               (Some (Data (VStr "boom"))))
            Samples.body_request))
    = [Success Samples.user_1 VNull; Fail (VStr "boom")].
Proof.
  repeat split; simpl; intros; first [lia | discriminate].
Qed.

(** C9, amended: when each delegated callback is invoked at most once and
    the verify callback returns without throwing, one [authenticate]
    invocation signals at most one outcome.  For a request whose query and
    headers containers are present and whose access token converts to a
    string, when each delegated call returns without throwing and invokes
    its callback exactly once, [authenticate] returns normally and signals
    exactly one outcome. *)
Theorem single_outcome parse self req :
  (Full.at_most_once self →
   Full.verify_returns self →
   length (outcomes (Full.total (Full.authenticate parse self req))) ≤ 1)
  ∧ (nullish (query req) = false →
     nullish (headers req) = false →
     (∀ a, credential "access_token" req = Normal a → stringifies a = true) →
     Full.exactly_once self →
     Full.returns_normally self →
     Full.thrown (Full.authenticate parse self req) = None
     ∧ ∃ o, outcomes (Full.total (Full.authenticate parse self req)) = [o]).
Proof.
  rewrite authenticate_full_unfold. split.
  - intros Hself Hverify.
    destruct (has_error req); [simpl; lia|].
    destruct (credential "access_token" req) as [a|]; [|simpl; lia].
    destruct (credential "refresh_token" req) as [r|]; [|simpl; lia].
    simpl.
    destruct (loader_form parse self a (Full.loaded self req a r) Hself)
      as (gets & _ & [-> | (e & p & ->)]).
    { intros e p. rewrite thrown_loaded, Hverify. by destruct (truthy e). }
    + rewrite <- (app_nil_r (Get <$> gets)), outcomes_gets. simpl. lia.
    + rewrite outcomes_gets.
      destruct (loaded_in_order self req a r e p Hself)
        as (calls & signals & -> & _ & Hs).
      by rewrite outcomes_calls.
  - intros Hq Hh Htok Hself Hret.
    destruct (has_error req); [split; [done | by eexists]|].
    destruct (credential_first_present "access_token" req Hq Hh)
      as (a & Ha & _).
    destruct (credential_first_present "refresh_token" req Hq Hh)
      as (r & -> & _).
    rewrite Ha. simpl.
    destruct (loader_form_exact parse self a (Full.loaded self req a r)
                Hself Hret (Htok a Ha)) as (-> & gets & e & p & ->).
    { intros e p. rewrite thrown_loaded.
      destruct Hret as (_ & -> & _). by destruct (truthy e). }
    split; [done|]. rewrite outcomes_gets.
    by apply loaded_signals_once.
Qed.

(** One response, one verdict, every call returning: exactly one outcome. *)
Lemma single_outcome_witness :
  Full.thrown
    (Full.authenticate Samples.JSON_parse
       (Samples.full_with [(Data VNull, VStr Samples.response_sub)]
          (Full.SkipValue VUndefined)
          [(Data VNull, Samples.user_1, Data VNull)] None)
       Samples.body_request) = None
  ∧ ∃ o,
      outcomes
        (Full.total
           (Full.authenticate Samples.JSON_parse
              (Samples.full_with [(Data VNull, VStr Samples.response_sub)]
                 (Full.SkipValue VUndefined)
                 [(Data VNull, Samples.user_1, Data VNull)] None)
              Samples.body_request)) = [o].
Proof.
  apply (proj2 (single_outcome Samples.JSON_parse
                  (Samples.full_with
                     [(Data VNull, VStr Samples.response_sub)]
                     (Full.SkipValue VUndefined)
                     [(Data VNull, Samples.user_1, Data VNull)] None)
                  Samples.body_request)).
  - reflexivity.
  - reflexivity.
  - intros a [= <-]. reflexivity.
  - repeat split; simpl; intros; first [lia | discriminate].
  - repeat split; simpl; intros; first [done | discriminate].
Defined.

(** X13: when every delegated callback is invoked at most once and the
    verify callback returns without throwing, an attempt consists of at most
    one GET, then at most one call of the verify callback, then at most one
    outcome, in this order. *)
Theorem attempt_in_order parse self req :
  Full.at_most_once self →
  Full.verify_returns self →
  in_order (Full.total (Full.authenticate parse self req)).
Proof.
  intros Hself Hverify. rewrite authenticate_full_unfold.
  destruct (has_error req); [exists [], [], [Fail VUndefined]; shaped|].
  destruct (credential "access_token" req) as [a|];
    [|exists [], [], []; shaped].
  destruct (credential "refresh_token" req) as [r|];
    [|exists [], [], []; shaped].
  simpl.
  destruct (loader_form parse self a (Full.loaded self req a r) Hself)
    as (gets & Hg & [-> | (e & p & ->)]).
  { intros e p. rewrite thrown_loaded, Hverify. by destruct (truthy e). }
  - exists gets, [], []. repeat split; first [by rewrite app_nil_r | simpl; lia].
  - destruct (loaded_in_order self req a r e p Hself)
      as (calls & signals & -> & Hc & Hs).
    by exists gets, calls, signals.
Qed.

Lemma attempt_in_order_witness :
  in_order
    (Full.total
       (Full.authenticate Samples.JSON_parse
          (Samples.full_with [(Data VNull, VStr Samples.response_sub)]
             (Full.SkipValue VUndefined)
             [(Data VNull, Samples.user_1, Data VNull)] None)
          Samples.body_request)).
Proof.
  apply (attempt_in_order Samples.JSON_parse
           (Samples.full_with [(Data VNull, VStr Samples.response_sub)]
              (Full.SkipValue VUndefined)
              [(Data VNull, Samples.user_1, Data VNull)] None)
           Samples.body_request).
  - repeat split; simpl; intros; first [lia | discriminate].
  - intros args. reflexivity.
Defined.

(** ** When authenticate throws *)

Lemma thrown_userProfile parse self tok done :
  Full.returns_normally self →
  stringifies tok = true →
  (∀ e p, Full.thrown (done e p) = None) →
  Full.thrown (Full.userProfile parse self tok done) = None.
Proof.
  intros (Hret & _) Htok Hdone.
  unfold Full.userProfile, ToString. rewrite Htok. unfold Full.run_of.
  rewrite thrown_seq_emit, thrown_call; [apply Hret|].
  intros [err body]. by apply fetched_completes.
Qed.

Lemma thrown_loader parse self tok done :
  Full.returns_normally self →
  stringifies tok = true →
  (∀ e p, Full.thrown (done e p) = None) →
  Full.thrown (Full._loadUserProfile parse self tok done) = None.
Proof.
  intros Hret Htok Hdone.
  pose proof (thrown_userProfile parse self tok done Hret Htok Hdone) as Hload.
  destruct Hret as (_ & _ & Hpol).
  unfold Full._loadUserProfile.
  destruct (Full._skipUserProfile self) as [v|f] eqn:Hf.
  - simpl. destruct (truthy v); [apply Hdone | apply Hload].
  - specialize (Hpol f eq_refl).
    destruct (1 <? Full.fn_length f).
    + rewrite thrown_call; [apply Hpol|].
      intros [err sk]. destruct (truthy err); [apply Hdone|].
      destruct (truthy sk); [apply Hdone | apply Hload].
    + destruct Hpol as (skip & Hcall). rewrite Hcall. simpl.
      destruct (truthy skip); [apply Hdone | apply Hload].
Qed.

(** X5: when every delegated call returns without throwing and the access
    token converts to a string, [authenticate] throws exactly when the
    request carries no error indicator and reading the access token or the
    refresh token reaches a missing container, and what it throws is a
    TypeError. *)
Theorem authenticate_throws parse self req e :
  Full.returns_normally self →
  (∀ a, credential "access_token" req = Normal a → stringifies a = true) →
  Full.thrown (Full.authenticate parse self req) = Some e
  ↔ e = TypeError
    ∧ has_error req = false
    ∧ (reaches_missing "access_token" req
       || reaches_missing "refresh_token" req) = true.
Proof.
  intros Hret Htok. rewrite authenticate_full_unfold.
  destruct (has_error req).
  { split; [discriminate | by intros (_ & ? & _)]. }
  destruct (credential "access_token" req) as [a|x] eqn:Ha.
  - assert (reaches_missing "access_token" req = false) as ->.
    { destruct (reaches_missing "access_token" req) eqn:Hm; [|done].
      assert (credential "access_token" req = Throw TypeError) as Hthrow
        by by apply credential_throws.
      congruence. }
    simpl.
    destruct (credential "refresh_token" req) as [r|y] eqn:Hr; simpl.
    + rewrite thrown_loader; [|done|by apply Htok|].
      * split; [discriminate|]. intros (_ & _ & Hm).
        assert (credential "refresh_token" req = Throw TypeError) as Hthrow
          by by apply credential_throws.
        congruence.
      * intros e' p. rewrite thrown_loaded.
        destruct Hret as (_ & -> & _). by destruct (truthy e').
    + apply credential_throws in Hr as [-> ->].
      split; [by intros [= <-] | by intros (-> & _)].
  - apply credential_throws in Ha as [-> ->]. simpl.
    split; [by intros [= <-] | by intros (-> & _)].
Qed.

Lemma authenticate_throws_witness :
  Full.thrown
    (Full.authenticate Samples.JSON_parse
       (Samples.full_with [] (Full.SkipValue VUndefined) [] None)
       Samples.bare_request) = Some TypeError.
Proof.
  apply (authenticate_throws Samples.JSON_parse
           (Samples.full_with [] (Full.SkipValue VUndefined) [] None)
           Samples.bare_request TypeError).
  - repeat split; simpl; intros; first [done | discriminate].
  - intros a. discriminate.
  - by repeat split.
Defined.

(** ** Building the profile *)

(** X6: the statements of the guarded block of [userProfile] that precede
    [done(null, profile)] have three results and no other.  They throw a
    SyntaxError exactly when the body converts to a string that is no JSON;
    a TypeError exactly when the body does not convert to a string or parses
    to null (or undefined); and otherwise they build the profile, whose
    missing claims are undefined. *)
Theorem build_profile_result parse url body :
  (Full.build_profile parse url body = Throw SyntaxError
   ↔ stringifies body = true ∧ parse (to_string body) = None)
  ∧ (Full.build_profile parse url body = Throw TypeError
     ↔ stringifies body = false
       ∨ ∃ json, parse (to_string body) = Some json ∧ nullish json = true)
  ∧ (∀ p, Full.build_profile parse url body = Normal p
          ↔ stringifies body = true
            ∧ ∃ json, parse (to_string body) = Some json
                      ∧ nullish json = false
                      ∧ p = normalized url body json)
  ∧ (∀ e, Full.build_profile parse url body = Throw e
          → e = SyntaxError ∨ e = TypeError).
Proof.
  rewrite build_profile_cases.
  destruct (stringifies body);
    [destruct (parse (to_string body)) as [json|];
       [destruct (nullish json) eqn:Hj|]|];
    (split; [|split; [|split]]).
  - split; [discriminate | by intros (_ & ?)].
  - split; [by right; eexists | done].
  - intros p. split; [discriminate|].
    intros (_ & j & [= <-] & Hn & _). congruence.
  - intros e [= <-]. by right.
  - split; [discriminate | by intros (_ & ?)].
  - split; [discriminate|].
    intros [? | (j & [= <-] & Hn)]; [done | congruence].
  - intros p. split.
    + intros [= <-]. split; [done|]. by eexists.
    + by intros (_ & j & [= <-] & _ & ->).
  - discriminate.
  - done.
  - split; [discriminate|]. by intros [? | (j & ? & _)].
  - intros p. split; [discriminate | by intros (_ & j & ? & _)].
  - intros e [= <-]. by left.
  - split; [discriminate | by intros (? & _)].
  - split; [by left | done].
  - intros p. split; [discriminate | by intros (? & _)].
  - intros e [= <-]. by right.
Qed.

(** A body that is no JSON, the body null, and an object with an own
    toString. *)
Lemma build_profile_result_witness :
  Full.build_profile Samples.JSON_parse Samples.sample_url (VStr "<html>")
    = Throw SyntaxError
  ∧ Full.build_profile Samples.JSON_parse Samples.sample_url (VStr "null")
    = Throw TypeError
  ∧ Full.build_profile Samples.JSON_parse Samples.sample_url
      (VObj {[ "toString" := VNum 1 ]})
    = Throw TypeError.
Proof.
  destruct (build_profile_result Samples.JSON_parse Samples.sample_url
              (VStr "<html>")) as (Hsyntax & _).
  destruct (build_profile_result Samples.JSON_parse Samples.sample_url
              (VStr "null")) as (_ & Hnull & _).
  destruct (build_profile_result Samples.JSON_parse Samples.sample_url
              (VObj {[ "toString" := VNum 1 ]})) as (_ & Hobj & _).
  split; [by apply Hsyntax|]. split; [apply Hnull | apply Hobj].
  - right. by exists VNull.
  - by left.
Defined.

(** ** Where the events of an attempt come from, in full *)

Lemma elem_of_verified_full ev e u i :
  ev ∈ Full.total (Full.verified e u i) → ev ∈ verified e u i.
Proof. destruct (total_verified e u i) as (o & -> & <-). done. Qed.

Lemma elem_of_loaded_full self req a r err p ev :
  ev ∈ Full.total (Full.loaded self req a r err p) →
  (truthy err = true ∧ ev = Signal (Fail err))
  ∨ (truthy err = false
     ∧ (ev = Verify (Full.verify_args_for self req a r p)
        ∨ ∃ e u i,
            (e, u, i)
            ∈ Full.now
                (Full._verify self (Full.verify_args_for self req a r p))
              ++ Full.later
                   (Full._verify self (Full.verify_args_for self req a r p))
            ∧ ev ∈ verified e u i)).
Proof.
  rewrite total_loaded. destruct (truthy err).
  - intros ->%list_elem_of_singleton. by left.
  - intros [-> | Hin]%elem_of_cons; right; (split; [done|]); [by left|].
    apply elem_of_total_call in Hin as ([[e u] i] & Hv & Hin).
    right. exists e, u, i. split; [done|]. by apply elem_of_verified_full.
Qed.

(** Every event of the callback handed to the HTTP client belongs to a
    completion of the load callback. *)
Lemma elem_of_fetched parse self req a r err body ev :
  stringifies a = true →
  (err, body)
  ∈ Full.now (Full._oauth2_get self (tokeninfo +:+ to_string a))
    ++ Full.later (Full._oauth2_get self (tokeninfo +:+ to_string a)) →
  ev ∈ Full.total
         (Full.fetched parse (tokeninfo +:+ to_string a)
            (Full.loaded self req a r) err body) →
  ∃ e p, Full.load_result parse self req a r e p
         ∧ ev ∈ Full.total (Full.loaded self req a r e p).
Proof.
  intros Ha Hin. unfold Full.fetched.
  destruct (truthy err) eqn:Herr.
  { intros Hev. eexists _, _. split; [|exact Hev].
    by eapply Full.load_transport_error. }
  destruct (Full.build_profile parse (tokeninfo +:+ to_string a) body)
    as [profile|x] eqn:Hbuild; simpl.
  - intros [Hev | (e & Hthrown & Hev)]%elem_of_total_try.
    + eexists _, _. split; [|exact Hev]. by eapply Full.load_profile.
    + rewrite thrown_loaded in Hthrown. simpl in Hthrown.
      eexists _, _. split; [|exact Hev]. by eapply Full.load_verify_error.
  - intros [Hev | (e & [= <-] & Hev)]%elem_of_total_try.
    + by apply elem_of_nil in Hev.
    + eexists _, _. split; [|exact Hev]. by eapply Full.load_build_error.
Qed.

Lemma elem_of_userProfile_full parse self req a r ev :
  ev ∈ Full.total
         (Full.userProfile parse self a (Full.loaded self req a r)) →
  (stringifies a = true ∧ ev = Get (tokeninfo +:+ to_string a))
  ∨ ∃ e p, Full.load_result parse self req a r e p
           ∧ ev ∈ Full.total (Full.loaded self req a r e p).
Proof.
  unfold Full.userProfile, ToString.
  destruct (stringifies a) eqn:Ha; simpl; [|by intros ?%elem_of_nil].
  rewrite total_seq_emit. intros [-> | Hev]%elem_of_cons; [by left|]. right.
  apply elem_of_total_call in Hev as ([err body] & Hin & Hev).
  by eapply elem_of_fetched.
Qed.

Lemma elem_of_loader_full parse self req a r ev :
  ev ∈ Full.total
         (Full._loadUserProfile parse self a (Full.loaded self req a r)) →
  (stringifies a = true ∧ ev = Get (tokeninfo +:+ to_string a))
  ∨ ∃ e p, Full.load_result parse self req a r e p
           ∧ ev ∈ Full.total (Full.loaded self req a r e p).
Proof.
  assert (ev ∈ Full.total (Full.loaded self req a r VNull None) →
          ∃ e p, Full.load_result parse self req a r e p
                 ∧ ev ∈ Full.total (Full.loaded self req a r e p)) as Hskip.
  { intros Hev. eexists _, _. split; [apply Full.load_skipped | exact Hev]. }
  unfold Full._loadUserProfile.
  destruct (Full._skipUserProfile self) as [v|f] eqn:Hpol.
  - simpl. destruct (truthy v); simpl; [by right; apply Hskip|].
    apply elem_of_userProfile_full.
  - destruct (1 <? Full.fn_length f) eqn:Hlen.
    + apply Nat.ltb_lt in Hlen.
      intros ([err skip] & Hin & Hev)%elem_of_total_call.
      destruct (truthy err) eqn:He.
      { right. eexists _, _. split; [|exact Hev].
        by eapply Full.load_policy_error. }
      destruct (truthy skip); simpl in Hev; [by right; apply Hskip|].
      by apply elem_of_userProfile_full.
    + destruct (Full.fn_call f) as [skip|x]; simpl;
        [|by intros ?%elem_of_nil].
      destruct (truthy skip); simpl; [by right; apply Hskip|].
      apply elem_of_userProfile_full.
Qed.

(** Every event of an attempt: the immediate failure, the GET for the
    extracted access token, or an event of the load callback on one of its
    completions. *)
Lemma authenticate_event_full parse self req ev :
  ev ∈ Full.total (Full.authenticate parse self req) →
  (has_error req = true ∧ ev = Signal (Fail VUndefined))
  ∨ ∃ a r,
      has_error req = false
      ∧ credential "access_token" req = Normal a
      ∧ credential "refresh_token" req = Normal r
      ∧ ((stringifies a = true ∧ ev = Get (tokeninfo +:+ to_string a))
         ∨ ∃ e p, Full.load_result parse self req a r e p
                  ∧ ev ∈ Full.total (Full.loaded self req a r e p)).
Proof.
  rewrite authenticate_full_unfold.
  destruct (has_error req).
  { intros ->%list_elem_of_singleton. by left. }
  destruct (credential "access_token" req) as [a|];
    [|by intros ?%elem_of_nil].
  destruct (credential "refresh_token" req) as [r|];
    [|by intros ?%elem_of_nil].
  simpl. intros Hev. right. exists a, r.
  repeat (split; [done|]). by apply elem_of_loader_full.
Qed.

Lemma verify_args_for_inj self req a r p a' r' p' :
  Full.verify_args_for self req a r p = Full.verify_args_for self req a' r' p' →
  a = a' ∧ r = r' ∧ p = p'.
Proof.
  unfold Full.verify_args_for.
  destruct (truthy_val (Full._passReqToCallback self)); by intros [= -> -> ->].
Qed.

(** X9: whatever the collaborators do, every profile the verify callback
    receives is the one normalized from a response that the HTTP client
    delivered without error for this attempt's access token: the access
    token and the raw body convert to strings, the raw body parses to the
    retained JSON, which is not null, the profileUrl is the URL fetched for
    the access token of the same call, and the provider is google. *)
Theorem verified_profile_invariant parse self req a r p :
  Verify (Full.verify_args_for self req a r (Some p))
  ∈ Full.total (Full.authenticate parse self req) →
  stringifies a = true
  ∧ stringifies (_raw p) = true
  ∧ p = normalized (tokeninfo +:+ to_string a) (_raw p) (_json p)
  ∧ parse (to_string (_raw p)) = Some (_json p)
  ∧ nullish (_json p) = false
  ∧ (∃ err,
       (err, _raw p)
       ∈ Full.now (Full._oauth2_get self (tokeninfo +:+ to_string a))
         ++ Full.later (Full._oauth2_get self (tokeninfo +:+ to_string a))
       ∧ truthy err = false)
  ∧ profileUrl p = tokeninfo +:+ to_string a
  ∧ provider p = "google".
Proof.
  intros Hev.
  destruct (authenticate_event_full _ _ _ _ Hev)
    as [(_ & [=]) | (a' & r' & _ & _ & _ & [(_ & [=]) | (e & q & Hload & Hin)])].
  apply elem_of_loaded_full in Hin
    as [(_ & [=]) | (He & [[= Hargs] | (x & u & i & _ & Hin)])].
  - apply verify_args_for_inj in Hargs as (-> & -> & <-).
    inversion Hload as [| | | |err body profile Ha Hin Herr Hbuild|];
      subst; try done.
    rewrite build_profile_cases in Hbuild.
    destruct (stringifies body) eqn:Hbody; [|done].
    destruct (parse (to_string body)) as [json|] eqn:Hparse; [|done].
    destruct (nullish json) eqn:Hjson; [done|].
    injection Hbuild as <-.
    simpl. repeat split; try done. by exists err.
  - by apply elem_of_verified in Hin as [(? & _) | [(? & _) | (? & _)]].
Qed.

Lemma verified_profile_invariant_witness :
  Samples.JSON_parse (to_string (_raw Samples.sample_profile))
    = Some (_json Samples.sample_profile)
  ∧ profileUrl Samples.sample_profile = tokeninfo +:+ to_string (VStr "abc").
Proof.
  destruct (verified_profile_invariant Samples.JSON_parse
              (Samples.full_with [(Data VNull, VStr Samples.response_sub)]
                 (Full.SkipValue VUndefined)
                 [(Data VNull, Samples.user_1, Data VNull)] None)
              Samples.body_request
              (VStr "abc") VUndefined Samples.sample_profile)
    as (_ & _ & _ & Hparse & _ & _ & Hurl & _).
  - simpl. apply list_elem_of_further, list_elem_of_here.
  - by split.
Defined.

(** ** Where failures come from *)

(** X12: a fail outcome has one of three origins.  It carries no reason and
    comes from the request's error indicator; or it carries a truthy load
    error, which is the error of the asynchronous skip predicate, the
    wrapped error of the HTTP client, the SyntaxError or TypeError of
    building the profile, or what the verify callback threw when called
    with the profile; or it carries the info of a verdict with neither error
    nor user. *)
Theorem fail_origins parse self req reason :
  Fail reason ∈ outcomes (Full.total (Full.authenticate parse self req)) →
  (has_error req = true ∧ reason = VUndefined)
  ∨ (truthy reason = true
     ∧ ∃ a r, credential "access_token" req = Normal a
              ∧ credential "refresh_token" req = Normal r
              ∧ Full.load_result parse self req a r reason None)
  ∨ (∃ a r p err user,
       credential "access_token" req = Normal a
       ∧ credential "refresh_token" req = Normal r
       ∧ (err, user, reason)
         ∈ Full.now (Full._verify self (Full.verify_args_for self req a r p))
           ++ Full.later
                (Full._verify self (Full.verify_args_for self req a r p))
       ∧ truthy err = false
       ∧ truthy user = false).
Proof.
  intros (ev & Hev & Hsig)%list_elem_of_omap.
  destruct ev as [| |o]; try discriminate. injection Hsig as ->.
  destruct (authenticate_event_full _ _ _ _ Hev)
    as [(He & [= ->])
       | (a & r & _ & Ha & Hr & [(_ & [=]) | (e & p & Hload & Hin)])];
    [by left|].
  apply elem_of_loaded_full in Hin
    as [(Herr & [= ->]) | (Herr & [[=] | (x & u & i & Hv & Hin)])].
  - right; left. split; [done|]. exists a, r. repeat (split; [done|]).
    inversion Hload; subst; try done.
  - apply elem_of_verified in Hin
      as [([=] & _) | [([= ->] & Hx & Hu) | ([=] & _)]].
    right; right. by exists a, r, p, x, u.
Qed.

(** The failure of a request that carries the error indicator. *)
Lemma fail_origins_witness :
  (has_error Samples.denied_request = true ∧ Data VUndefined = VUndefined)
  ∨ (truthy VUndefined = true
     ∧ ∃ a r, credential "access_token" Samples.denied_request = Normal a
              ∧ credential "refresh_token" Samples.denied_request = Normal r
              ∧ Full.load_result Samples.JSON_parse
                  (Samples.full_with [] (Full.SkipValue VUndefined) [] None)
                  Samples.denied_request a r VUndefined None)
  ∨ (∃ a r p err user,
       credential "access_token" Samples.denied_request = Normal a
       ∧ credential "refresh_token" Samples.denied_request = Normal r
       ∧ (err, user, Data VUndefined)
         ∈ Full.now
             (Full._verify
                (Samples.full_with [] (Full.SkipValue VUndefined) [] None)
                (Full.verify_args_for
                   (Samples.full_with [] (Full.SkipValue VUndefined) [] None)
                   Samples.denied_request a r p))
           ++ Full.later
                (Full._verify
                   (Samples.full_with [] (Full.SkipValue VUndefined) [] None)
                   (Full.verify_args_for
                      (Samples.full_with [] (Full.SkipValue VUndefined) []
                         None)
                      Samples.denied_request a r p))
       ∧ truthy err = false
       ∧ truthy user = false).
Proof.
  apply (fail_origins Samples.JSON_parse
           (Samples.full_with [] (Full.SkipValue VUndefined) [] None)
           Samples.denied_request VUndefined).
  simpl. apply list_elem_of_here.
Defined.

(** ** Attempts end to end, in full *)

(** A delegated call whose callback neither throws nor leaves events for
    later has the events of its invocations, in order. *)
Lemma total_call_plain {A} (b : Full.behaviour A) callback :
  (∀ x, Full.thrown (callback x) = None
        ∧ Full.afterwards (callback x) = []) →
  Full.total (Full.call b callback)
  = (Full.now b ++ Full.later b) ≫= λ x, Full.events (callback x).
Proof.
  intros Hk. unfold Full.call, Full.total at 1. simpl.
  rewrite (assoc_L (++)).
  fold (Full.total
          (Full.seq
             (foldr (λ x rest, Full.seq (callback x) rest) (Full.emit [])
                (Full.now b))
             {| Full.events := []; Full.thrown := Full.completes b;
                Full.afterwards := [] |})).
  rewrite total_seq_silent, bind_app. f_equal.
  - induction (Full.now b) as [|x xs IH]; [done|].
    simpl. unfold Full.seq at 1. destruct (Hk x) as [-> Hafter].
    unfold Full.total in *. simpl. rewrite Hafter. simpl.
    by rewrite <- (assoc_L (++)), IH.
  - induction (Full.later b) as [|x xs IH]; [done|].
    rewrite !bind_cons, IH. f_equal.
    unfold Full.total. destruct (Hk x) as [_ ->]. apply app_nil_r.
Qed.

Lemma verified_plain err user info :
  Full.thrown (Full.verified err user info) = None
  ∧ Full.afterwards (Full.verified err user info) = []
  ∧ Full.events (Full.verified err user info) = verified err user info.
Proof.
  unfold Full.verified, verified.
  by destruct (truthy err), (truthy user).
Qed.

(** The signals of the verdicts of a verify call. *)
Lemma total_verdicts (b : Full.behaviour (any * any * any)) :
  Full.total (Full.call b (λ '(e, u, i), Full.verified e u i))
  = (Full.now b ++ Full.later b) ≫= λ '(e, u, i), verified e u i.
Proof.
  rewrite total_call_plain.
  - induction (Full.now b ++ Full.later b) as [|[[e u] i] xs IH]; [done|].
    rewrite !bind_cons, IH. f_equal. apply verified_plain.
  - intros [[e u] i]. split; apply verified_plain.
Qed.

Lemma loader_fetch_full parse self tok done :
  Full.resolves_to_fetch self tok →
  Full.total (Full._loadUserProfile parse self tok done)
  = Full.total (Full.userProfile parse self tok done).
Proof.
  unfold Full._loadUserProfile.
  intros [v -> Hv | f skip -> Hlen Hcall Hv | f err skip -> Hlen Hcall He Hs].
  - simpl. by rewrite Hv.
  - apply Nat.ltb_ge in Hlen. rewrite Hlen, Hcall. simpl. by rewrite Hv.
  - apply Nat.ltb_lt in Hlen. rewrite Hlen, (total_call_once _ _ _ Hcall).
    by rewrite He, Hs.
Qed.

(** X15: when the skip policy resolves to fetch (as it does when none is
    configured), the access token converts to a string, the HTTP client
    delivers once and without error a body that converts to a string and
    parses to a value other than null, and the verify callback returns
    without throwing, an attempt whose credentials can be read issues the
    GET for the access token, then calls the verify callback with the
    credentials and the profile normalized from that body, and signals the
    outcomes of its verdicts. *)
Theorem fetched_attempt parse self req a r err body json :
  has_error req = false →
  credential "access_token" req = Normal a →
  credential "refresh_token" req = Normal r →
  stringifies a = true →
  Full.resolves_to_fetch self a →
  Full.delivers_once
    (Full._oauth2_get self (tokeninfo +:+ to_string a)) (err, body) →
  truthy err = false →
  stringifies body = true →
  parse (to_string body) = Some json →
  nullish json = false →
  let args :=
    Full.verify_args_for self req a r
      (Some (normalized (tokeninfo +:+ to_string a) body json)) in
  Full.completes (Full._verify self args) = None →
  Full.total (Full.authenticate parse self req)
  = Get (tokeninfo +:+ to_string a)
    :: Verify args
    :: ((Full.now (Full._verify self args)
         ++ Full.later (Full._verify self args))
        ≫= λ '(err, user, info), verified err user info).
Proof.
  intros He Ha Hr Htok Hfetch Hget Herr Hbody Hparse Hjson args Hverify.
  rewrite authenticate_full_unfold, He, Ha, Hr. simpl.
  rewrite (loader_fetch_full _ _ _ _ Hfetch).
  rewrite (userProfile_full_once _ _ _ _ _ _ Htok Hget).
  unfold Full.fetched.
  rewrite Herr, build_profile_cases, Hbody, Hparse, Hjson. simpl.
  unfold Full.try_catch. rewrite thrown_loaded. simpl. fold args.
  rewrite Hverify, total_loaded. simpl. fold args.
  by rewrite total_verdicts.
Qed.

Lemma fetched_attempt_witness :
  Full.total
    (Full.authenticate Samples.JSON_parse
       (Samples.full_with [(Data VNull, VStr Samples.response_sub)]
          (Full.SkipValue VUndefined)
          [(Data VNull, Samples.user_1, Data VNull)] None)
       Samples.body_request)
  = Samples.ruled (Success Samples.user_1 VNull).
Proof.
  apply (fetched_attempt Samples.JSON_parse
           (Samples.full_with [(Data VNull, VStr Samples.response_sub)]
              (Full.SkipValue VUndefined)
              [(Data VNull, Samples.user_1, Data VNull)] None)
           Samples.body_request (VStr "abc") VUndefined
           VNull (VStr Samples.response_sub) Samples.claims_sub);
    try reflexivity.
  by apply (Full.fetch_by_value _ _ VUndefined).
Defined.







(** ** The two embeddings agree *)

(** For collaborators that return, and tokens and bodies that convert to
    strings, the operations in full do what the operations of the first
    embedding do. *)

Lemma bind_ext_in {A B} (f g : A → list B) l :
  (∀ x, x ∈ l → f x = g x) → l ≫= f = l ≫= g.
Proof.
  induction l as [|x l IH]; intros Hfg; [done|].
  rewrite !bind_cons, IH.
  - f_equal. apply Hfg, list_elem_of_here.
  - intros y Hy. by apply Hfg, list_elem_of_further.
Qed.

Lemma call_deferred {A} (l : list A) callback :
  Full.thrown (Full.call (deferred l) callback) = None
  ∧ Full.total (Full.call (deferred l) callback)
    = l ≫= λ x, Full.total (callback x).
Proof. done. Qed.

Lemma loaded_in_full self req a r err p :
  Full.thrown (Full.loaded (in_full self) req a r err p) = None
  ∧ Full.total (Full.loaded (in_full self) req a r err p)
    = loaded self req a r err p.
Proof.
  unfold Full.loaded, loaded, Full.verify_args_for.
  destruct (truthy err); [done|]. split; [done|].
  rewrite total_seq_emit. simpl. f_equal.
  rewrite (proj2 (call_deferred _ _)).
  apply bind_ext_in. intros [[e u] i] _.
  destruct (total_verified e u i) as (o & -> & <-). done.
Qed.

Lemma build_profile_converts parse url body :
  stringifies body = true →
  Full.build_profile parse url body = parse_profile parse url body.
Proof.
  intros Hbody. unfold Full.build_profile, ToString. by rewrite Hbody.
Qed.

Lemma userProfile_in_full parse self tok done done' :
  stringifies tok = true →
  (∀ err body, (err, body) ∈ _oauth2_get self (tokeninfo +:+ to_string tok) →
               truthy err = false → stringifies body = true) →
  (∀ e p, Full.thrown (done' e p) = None ∧ Full.total (done' e p) = done e p) →
  Full.thrown (Full.userProfile parse (in_full self) tok done') = None
  ∧ Full.total (Full.userProfile parse (in_full self) tok done')
    = userProfile parse self tok done.
Proof.
  intros Htok Hbodies Hdone.
  unfold Full.userProfile, userProfile, ToString. rewrite Htok.
  unfold Full.run_of. split; [done|].
  rewrite total_seq_emit. simpl. f_equal.
  rewrite (proj2 (call_deferred _ _)).
  apply bind_ext_in. intros [err body] Hin.
  unfold Full.fetched. destruct (truthy err) eqn:Herr; [apply Hdone|].
  rewrite (build_profile_converts _ _ _ (Hbodies _ _ Hin Herr)).
  destruct (parse_profile parse (tokeninfo +:+ to_string tok) body)
    as [profile|e]; simpl.
  - unfold Full.try_catch. destruct (Hdone VNull (Some profile)) as [-> ->].
    done.
  - unfold Full.try_catch, Full.total. simpl.
    destruct (Hdone e None) as [_ <-]. done.
Qed.

Lemma loader_in_full parse self tok done done' :
  stringifies tok = true →
  (∀ err body, (err, body) ∈ _oauth2_get self (tokeninfo +:+ to_string tok) →
               truthy err = false → stringifies body = true) →
  (∀ e p, Full.thrown (done' e p) = None ∧ Full.total (done' e p) = done e p) →
  Full.thrown (Full._loadUserProfile parse (in_full self) tok done') = None
  ∧ Full.total (Full._loadUserProfile parse (in_full self) tok done')
    = _loadUserProfile parse self tok done.
Proof.
  intros Htok Hbodies Hdone.
  pose proof (userProfile_in_full parse self tok done done' Htok Hbodies Hdone)
    as Hload.
  unfold Full._loadUserProfile, _loadUserProfile. simpl.
  destruct (_skipUserProfile self) as [v|f]; simpl.
  - destruct (truthy v); simpl; [apply Hdone | apply Hload].
  - destruct (1 <? fn_length f).
    + split; [done|]. rewrite (proj2 (call_deferred _ _)).
      apply bind_ext_in. intros [err skip] _.
      destruct (truthy err); [apply Hdone|].
      destruct (truthy skip); simpl; [apply Hdone | apply Hload].
    + simpl. destruct (truthy (fn_call f)); simpl; [apply Hdone | apply Hload].
Qed.

(** An attempt in full, for collaborators that return: it throws what the
    first embedding throws, before any event, and otherwise has its
    events. *)
Lemma authenticate_in_full parse self req :
  (∀ a, credential "access_token" req = Normal a → stringifies a = true) →
  (∀ url err body, (err, body) ∈ _oauth2_get self url →
                   truthy err = false → stringifies body = true) →
  match authenticate parse self req with
  | Normal t =>
      Full.thrown (Full.authenticate parse (in_full self) req) = None
      ∧ Full.total (Full.authenticate parse (in_full self) req) = t
  | Throw e =>
      Full.thrown (Full.authenticate parse (in_full self) req) = Some e
      ∧ Full.total (Full.authenticate parse (in_full self) req) = []
  end.
Proof.
  intros Htok Hbodies.
  rewrite authenticate_full_unfold, authenticate_unfold.
  destruct (has_error req); [done|].
  destruct (credential "access_token" req) as [a|x] eqn:Ha; [|done].
  destruct (credential "refresh_token" req) as [r|y]; [|done].
  simpl. apply loader_in_full; [by apply Htok | by eauto |].
  intros e p. apply loaded_in_full.
Qed.

(** ** An unguarded verify callback *)

(** A delegated call whose callback neither throws nor leaves events for
    later: its events while it runs, its completion, and its events
    afterwards. *)
Lemma call_plain {A} (b : Full.behaviour A) callback :
  (∀ x, Full.thrown (callback x) = None
        ∧ Full.afterwards (callback x) = []) →
  Full.events (Full.call b callback)
  = (Full.now b ≫= λ x, Full.events (callback x))
  ∧ Full.thrown (Full.call b callback) = Full.completes b
  ∧ Full.afterwards (Full.call b callback)
    = (Full.later b ≫= λ x, Full.events (callback x)).
Proof.
  intros Hk.
  assert (∀ xs,
            let during :=
              foldr (λ x rest, Full.seq (callback x) rest) (Full.emit []) xs in
            Full.events during = (xs ≫= λ x, Full.events (callback x))
            ∧ Full.thrown during = None
            ∧ Full.afterwards during = []) as Hnow.
  { induction xs as [|x xs IH]; [done|].
    simpl in *. destruct IH as (IHe & IHt & IHa).
    set (rest := foldr _ _ xs) in *.
    unfold Full.seq. destruct (Hk x) as [-> Hafter].
    simpl. by rewrite IHe, IHt, IHa, Hafter. }
  destruct (Hnow (Full.now b)) as (He & Ht & Ha).
  unfold Full.call. simpl.
  set (during := foldr _ _ (Full.now b)) in *.
  unfold Full.seq. rewrite Ht. simpl.
  rewrite He, Ha, app_nil_r. simpl. repeat split.
  apply bind_ext_in. intros x _. unfold Full.total.
  destruct (Hk x) as [_ ->]. apply app_nil_r.
Qed.

(** X17: when the skip policy decides to skip without asking, nothing guards
    the verify callback: an attempt whose credentials can be read calls it
    with the credentials and no profile, signals the outcomes of the
    verdicts it reports before it completes, and then throws to the
    framework exactly what the verify callback throws, if it does; the
    verdicts it reports later are signalled later. *)
Theorem verify_exception_propagates parse self req a r :
  has_error req = false →
  credential "access_token" req = Normal a →
  credential "refresh_token" req = Normal r →
  Full.skips_directly self →
  let args := Full.verify_args_for self req a r None in
  Full.events (Full.authenticate parse self req)
  = Verify args
    :: (Full.now (Full._verify self args)
        ≫= λ '(err, user, info), verified err user info)
  ∧ Full.thrown (Full.authenticate parse self req)
    = Full.completes (Full._verify self args)
  ∧ Full.afterwards (Full.authenticate parse self req)
    = (Full.later (Full._verify self args)
       ≫= λ '(err, user, info), verified err user info).
Proof.
  intros He Ha Hr Hskip args.
  rewrite authenticate_full_unfold, He, Ha, Hr. simpl.
  assert (Full._loadUserProfile parse self a (Full.loaded self req a r)
          = Full.loaded self req a r VNull None) as ->.
  { unfold Full._loadUserProfile.
    destruct Hskip as [v -> Hv | f skip -> Hlen Hcall Hv].
    - simpl. by rewrite Hv.
    - apply Nat.ltb_ge in Hlen. rewrite Hlen, Hcall. simpl. by rewrite Hv. }
  unfold Full.loaded. change (truthy (Data VNull)) with false. cbv iota.
  fold args.
  destruct (call_plain (Full._verify self args)
              (λ '(err, user, info), Full.verified err user info))
    as (Hev & Hth & Haf).
  { intros [[e u] i]. split; apply verified_plain. }
  rewrite thrown_seq_emit, Hth.
  change (Full.events (Full.seq (Full.emit [Verify args]) ?r))
    with (Verify args :: Full.events r).
  change (Full.afterwards (Full.seq (Full.emit [Verify args]) ?r))
    with (Full.afterwards r).
  rewrite Hev, Haf.
  repeat split; [f_equal|];
    apply bind_ext_in; intros [[e u] i] _; apply verified_plain.
Qed.

(** A verify callback that reports a user and then throws: the attempt
    succeeds and [authenticate] throws. *)
Lemma verify_exception_propagates_witness :
  Full.events
    (Full.authenticate Samples.JSON_parse
       (Samples.full_with [] (Full.SkipValue (VBool true))
          [(Data VNull, Samples.user_1, Data VNull)]
          (Some (Data (VStr "boom"))))
       Samples.body_request)
  = [Verify (WithoutReq (VStr "abc") VUndefined None);
     Signal (Success Samples.user_1 VNull)]
  ∧ Full.thrown
      (Full.authenticate Samples.JSON_parse
         (Samples.full_with [] (Full.SkipValue (VBool true))
            [(Data VNull, Samples.user_1, Data VNull)]
            (Some (Data (VStr "boom"))))
         Samples.body_request)
    = Some (Data (VStr "boom")).
Proof.
  destruct (verify_exception_propagates Samples.JSON_parse
              (Samples.full_with [] (Full.SkipValue (VBool true))
                 [(Data VNull, Samples.user_1, Data VNull)]
                 (Some (Data (VStr "boom"))))
              Samples.body_request (VStr "abc") VUndefined)
    as (Hev & Hth & _); try reflexivity.
  - by apply (Full.skip_by_value _ (VBool true)).
  - split; [exact Hev | exact Hth].
Defined.
